(** * GlowJack receiver: feature state, protocol router, frame scheduler
      and the four visualizers of [src/receiver.js], with the properties
      of the specification proved (or refuted) against them.

    Numbers.  A JavaScript number is modelled by [jsnum]: [NaN], the two
    infinities, or an exact rational.  Arithmetic is IEEE-754 arithmetic
    without rounding, without overflow and without a negative zero.  The
    properties that compare magnitudes are stated with the margins that
    rounding to binary64 leaves intact: bounds that a rounding can reach
    are not strict, and strict decrease is stated away from the smallest
    and the largest doubles ([tiny], [huge]).

    Values.  Everything a message can carry is a [jsval]; the fields of
    the [features] object hold [jsval]s, because [updateFeatures] stores
    whatever truthy value a message brings.

    Host.  What the browser and the Cast SDK provide ([JSON.parse], the
    [Float32Array] constructor, the conversions between strings and
    numbers, [Math.random], [Math.sqrt], [Math.sin], [Math.cos], [Math.PI]) is the
    class [Host]; [performance.now()] is an argument of the two entry
    points that read it. *)

From Stdlib Require Import QArith Qround Qabs Lqa ZArith Lia.
From stdpp Require Import base option list gmap strings.

Local Open Scope Q_scope.

(** ** Numbers *)

Inductive jsnum :=
| NaN
| Inf (negative : bool)
| Num (q : Q).

Coercion Num : Q >-> jsnum.

Definition Qlt_bool (x y : Q) : bool := negb (Qle_bool y x).

(** Rounding toward zero, as in the [%] operator. *)
Definition Qtrunc (q : Q) : Z :=
  if Qle_bool 0 q then Qfloor q else Qceiling q.

Definition js_neg (a : jsnum) : jsnum :=
  match a with
  | NaN => NaN
  | Inf s => Inf (negb s)
  | Num x => Num (- x)
  end.

Definition js_add (a b : jsnum) : jsnum :=
  match a, b with
  | NaN, _ | _, NaN => NaN
  | Inf s, Inf t => if Bool.eqb s t then Inf s else NaN
  | Inf s, Num _ | Num _, Inf s => Inf s
  | Num x, Num y => Num (x + y)
  end.

Definition js_sub (a b : jsnum) : jsnum :=
  match a, b with
  | NaN, _ | _, NaN => NaN
  | Inf s, Inf t => if Bool.eqb s t then NaN else Inf s
  | Inf s, Num _ => Inf s
  | Num _, Inf t => Inf (negb t)
  | Num x, Num y => Num (x - y)
  end.

Definition js_mul (a b : jsnum) : jsnum :=
  match a, b with
  | NaN, _ | _, NaN => NaN
  | Inf s, Inf t => Inf (xorb s t)
  | Inf s, Num y | Num y, Inf s =>
      if Qeq_bool y 0 then NaN else Inf (xorb s (Qlt_bool y 0))
  | Num x, Num y => Num (x * y)
  end.

(** A zero divisor counts as [+0]. *)
Definition js_div (a b : jsnum) : jsnum :=
  match a, b with
  | NaN, _ | _, NaN => NaN
  | Inf _, Inf _ => NaN
  | Inf s, Num y => Inf (xorb s (Qlt_bool y 0))
  | Num _, Inf _ => Num 0
  | Num x, Num y =>
      if Qeq_bool y 0
      then (if Qeq_bool x 0 then NaN else Inf (Qlt_bool x 0))
      else Num (x / y)
  end.

(** [a % b]: the remainder has the sign of the dividend. *)
Definition js_rem (a b : jsnum) : jsnum :=
  match a, b with
  | NaN, _ | _, NaN => NaN
  | Inf _, _ => NaN
  | Num x, Inf _ => Num x
  | Num x, Num y =>
      if Qeq_bool y 0 then NaN
      else Num (x - y * inject_Z (Qtrunc (x / y)))
  end.

(** [a < b]; every comparison with [NaN] is false. *)
Definition js_lt (a b : jsnum) : bool :=
  match a, b with
  | NaN, _ | _, NaN => false
  | Inf s, Inf t => s && negb t
  | Inf s, Num _ => s
  | Num _, Inf t => negb t
  | Num x, Num y => Qlt_bool x y
  end.

Definition js_gt (a b : jsnum) : bool := js_lt b a.

Definition Math_max (a b : jsnum) : jsnum :=
  match a, b with
  | NaN, _ | _, NaN => NaN
  | _, _ => if js_lt a b then b else a
  end.

Definition Math_min (a b : jsnum) : jsnum :=
  match a, b with
  | NaN, _ | _, NaN => NaN
  | _, _ => if js_lt b a then b else a
  end.

Definition Math_floor (a : jsnum) : jsnum :=
  match a with
  | Num x => Num (inject_Z (Qfloor x))
  | _ => a
  end.

Definition Math_abs (a : jsnum) : jsnum :=
  match a with
  | NaN => NaN
  | Inf _ => Inf false
  | Num x => Num (Qabs x)
  end.

Declare Scope js_scope.
Delimit Scope js_scope with js.
Bind Scope js_scope with jsnum.
Infix "+" := js_add : js_scope.
Infix "-" := js_sub : js_scope.
Infix "*" := js_mul : js_scope.
Infix "/" := js_div : js_scope.
Infix "mod" := js_rem : js_scope.
Infix "<?" := js_lt : js_scope.
Infix ">?" := js_gt : js_scope.
Notation "- x" := (js_neg x) : js_scope.

(** ** Values *)

#[warnings="-register-all"]
Inductive jsval :=
| VUndef
| VNull
| VBool (b : bool)
| VNum (n : jsnum)
| VStr (s : string)
| VArr (items : list jsval)
| VObj (props : gmap string jsval).

(** ToBoolean: [undefined], [null], [false], [0], [NaN] and the empty
    string are falsy; everything else, objects and arrays included, is
    truthy. *)
Definition truthy (v : jsval) : bool :=
  match v with
  | VUndef | VNull => false
  | VBool b => b
  | VNum NaN => false
  | VNum (Inf _) => true
  | VNum (Num q) => negb (Qeq_bool q 0)
  | VStr s => negb (String.eqb s "")
  | VArr _ | VObj _ => true
  end.

Definition nullish (v : jsval) : bool :=
  match v with
  | VUndef | VNull => true
  | _ => false
  end.

(** [v.k] for one of the property names the receiver reads ([type],
    [data], [index] and the feature names), on a value that is not
    nullish: an own property of an object, [undefined] on anything else. *)
Definition prop (v : jsval) (k : string) : jsval :=
  match v with
  | VObj o => default VUndef (o !! k)
  | _ => VUndef
  end.

(** [a || d] *)
Definition or_else (a d : jsval) : jsval := if truthy a then a else d.

(** [v === "s"] *)
Definition is_string (v : jsval) (s : string) : bool :=
  match v with
  | VStr t => String.eqb t s
  | _ => false
  end.

(** [v === k] for an integer literal [k] *)
Definition is_number (v : jsval) (k : Z) : bool :=
  match v with
  | VNum (Num q) => Qeq_bool q (inject_Z k)
  | _ => false
  end.

(** ** The host *)

Class Host := {
  (** [JSON.parse]; [None] when it throws a SyntaxError. *)
  JSON_parse : string → option jsval;
  (** The text [null] is the JSON for [null]. *)
  JSON_parse_null : JSON_parse "null" = Some VNull;
  (** ToNumber on a string, an array or an object. *)
  ToNumber_host : jsval → jsnum;
  (** ToString on an array or an object. *)
  ToString_host : jsval → string;
  (** [new Float32Array(v)] for a truthy [v]; [None] when it throws. *)
  Float32Array_from : jsval → option (list jsnum);
  (** The value returned by the [n]-th call of [Math.random()]. *)
  Math_random : nat → Q;
  Math_random_range : ∀ n, 0 <= Math_random n ∧ Math_random n < 1;
  Math_sqrt : jsnum → jsnum;
  Math_sin : jsnum → jsnum;
  Math_cos : jsnum → jsnum;
  Math_PI : jsnum;
}.

Definition ToNumber `{Host} (v : jsval) : jsnum :=
  match v with
  | VUndef => NaN
  | VNull => Num 0
  | VBool b => if b then Num 1 else Num 0
  | VNum n => n
  | VStr _ | VArr _ | VObj _ => ToNumber_host v
  end.

(** ** State *)

Definition NAMESPACE : string := "urn:x-cast:com.grooveglow.viz".

Record FeatureState := {
  energyLow : jsval;
  energyMid : jsval;
  energyHigh : jsval;
  beatPulse : jsval;
  isBeat : jsval;
  beatCount : jsval;
  beatPhase : jsval;
  tempoBpm : jsval;
  brightness : jsval;
  roughness : jsval;
  sectionEnergy : jsval;
  amplitude : jsval;
  waveform : list jsnum;
  fftMagnitudes : list jsnum;
}.

(** The initial [features] object. *)
Definition initial_features : FeatureState := {|
  energyLow := VNum 0; energyMid := VNum 0; energyHigh := VNum 0;
  beatPulse := VNum 0; isBeat := VBool false; beatCount := VNum 0;
  beatPhase := VNum 0; tempoBpm := VNum 120;
  brightness := VNum 0.5; roughness := VNum 0;
  sectionEnergy := VNum 0;
  amplitude := VNum 0;
  waveform := replicate 128 (Num 0);
  fftMagnitudes := replicate 64 (Num 0);
|}.

(** A call either returns or throws. *)
Inductive exn := TypeError | TypedArrayError.

Inductive outcome :=
| Returned
| Threw (e : exn).

(** What a message handler does to the outside world. *)
Inductive Effect :=
| sendCustomMessage (namespace : string) (senderId : jsval) (message : jsval)
| console_log (args : list jsval).

(** ** Private state of the visualizers *)

Module Particle.
Record t := {
  x : jsnum; y : jsnum;
  vx : jsnum; vy : jsnum;
  size : jsnum;
  hue : jsnum;
  life : jsnum;
}.
End Particle.

Module Ring.
Record t := {
  radius : jsnum;
  thickness : jsnum;
  alpha : jsnum;
  hue : jsnum;
  waveOff : jsnum;
  waveAmp : jsnum;
}.
End Ring.

(** ** The drawing surface

    A frame's output is the list of calls it makes on the 2D context,
    in order.  A template string [hsla(h, s%, l%, a)] is kept as its
    four numbers.  The argument checks of the context itself are the
    browser's and are not modelled. *)

Inductive Color :=
| hsla (h s l a : jsnum)
| rgba (r g b a : jsnum)
| transparent.

Inductive Style :=
| solid (c : Color)
| radialGradient (x0 y0 r0 x1 y1 r1 : jsnum) (stops : list (jsnum * Color)).

Inductive DrawOp :=
| ctx_beginPath
| ctx_closePath
| ctx_moveTo (x y : jsnum)
| ctx_lineTo (x y : jsnum)
| ctx_arc (x y r startAngle endAngle : jsnum)
| ctx_fill
| ctx_stroke
| ctx_fillRect (x y w h : jsnum)
| ctx_fillStyle (s : Style)
| ctx_strokeStyle (s : Style)
| ctx_lineWidth (w : jsnum)
| ctx_lineCap (cap : string).

Section Receiver.
Context `{Host}.

(** ** FeatureState: [updateFeatures] *)

Definition set_waveform (w : list jsnum) (fs : FeatureState) : FeatureState := {|
  energyLow := energyLow fs; energyMid := energyMid fs;
  energyHigh := energyHigh fs; beatPulse := beatPulse fs;
  isBeat := isBeat fs; beatCount := beatCount fs;
  beatPhase := beatPhase fs; tempoBpm := tempoBpm fs;
  brightness := brightness fs; roughness := roughness fs;
  sectionEnergy := sectionEnergy fs; amplitude := amplitude fs;
  waveform := w;
  fftMagnitudes := fftMagnitudes fs;
|}.

Definition set_fftMagnitudes (m : list jsnum) (fs : FeatureState) : FeatureState := {|
  energyLow := energyLow fs; energyMid := energyMid fs;
  energyHigh := energyHigh fs; beatPulse := beatPulse fs;
  isBeat := isBeat fs; beatCount := beatCount fs;
  beatPhase := beatPhase fs; tempoBpm := tempoBpm fs;
  brightness := brightness fs; roughness := roughness fs;
  sectionEnergy := sectionEnergy fs; amplitude := amplitude fs;
  waveform := waveform fs;
  fftMagnitudes := m;
|}.

(** Lines 104-115: the twelve scalar assignments. *)
Definition assign_scalars (fs : FeatureState) (f : jsval) : FeatureState := {|
  energyLow := or_else (prop f "energyLow") (VNum 0);
  energyMid := or_else (prop f "energyMid") (VNum 0);
  energyHigh := or_else (prop f "energyHigh") (VNum 0);
  beatPulse := or_else (prop f "beatPulse") (VNum 0);
  isBeat := or_else (prop f "isBeat") (VBool false);
  beatCount := or_else (prop f "beatCount") (VNum 0);
  beatPhase := or_else (prop f "beatPhase") (VNum 0);
  tempoBpm := or_else (prop f "tempoBpm") (VNum 120);
  brightness := or_else (prop f "brightness") (VNum 0.5);
  roughness := or_else (prop f "roughness") (VNum 0);
  sectionEnergy := or_else (prop f "sectionEnergy") (VNum 0);
  amplitude := or_else (prop f "amplitude") (VNum 0);
  waveform := waveform fs;
  fftMagnitudes := fftMagnitudes fs;
|}.

(** Line 116. The mutation of [features] done before a throw stays. *)
Definition assign_waveform (fs : FeatureState) (f : jsval) : FeatureState * outcome :=
  if truthy (prop f "waveform") then
    match Float32Array_from (prop f "waveform") with
    | Some w => (set_waveform w fs, Returned)
    | None => (fs, Threw TypedArrayError)
    end
  else (fs, Returned).

(** Line 117. *)
Definition assign_fftMagnitudes (fs : FeatureState) (f : jsval) : FeatureState * outcome :=
  if truthy (prop f "fftMagnitudes") then
    match Float32Array_from (prop f "fftMagnitudes") with
    | Some m => (set_fftMagnitudes m fs, Returned)
    | None => (fs, Threw TypedArrayError)
    end
  else (fs, Returned).

Definition updateFeatures (fs : FeatureState) (f : jsval) : FeatureState * outcome :=
  if negb (truthy f) then (fs, Returned)
  else
    match assign_waveform (assign_scalars fs f) f with
    | (fs1, Returned) => assign_fftMagnitudes fs1 f
    | (fs1, Threw e) => (fs1, Threw e)
    end.

(** ** The receiver's variables *)

Record Receiver := {
  width : Z;
  height : Z;
  activeVizIndex : jsval;
  features : FeatureState;
  lastFeatureTime : Q;
  time : Q;
  nebulaParticles : list Particle.t;
  tunnelRings : list Ring.t;
  (** number of calls of [Math.random()] made so far *)
  randomCalls : nat;
}.

Definition set_features (fs : FeatureState) (st : Receiver) : Receiver := {|
  width := width st; height := height st;
  activeVizIndex := activeVizIndex st;
  features := fs;
  lastFeatureTime := lastFeatureTime st;
  time := time st;
  nebulaParticles := nebulaParticles st;
  tunnelRings := tunnelRings st;
  randomCalls := randomCalls st;
|}.

Definition set_lastFeatureTime (t : Q) (st : Receiver) : Receiver := {|
  width := width st; height := height st;
  activeVizIndex := activeVizIndex st;
  features := features st;
  lastFeatureTime := t;
  time := time st;
  nebulaParticles := nebulaParticles st;
  tunnelRings := tunnelRings st;
  randomCalls := randomCalls st;
|}.

Definition set_activeVizIndex (i : jsval) (st : Receiver) : Receiver := {|
  width := width st; height := height st;
  activeVizIndex := i;
  features := features st;
  lastFeatureTime := lastFeatureTime st;
  time := time st;
  nebulaParticles := nebulaParticles st;
  tunnelRings := tunnelRings st;
  randomCalls := randomCalls st;
|}.

(** ** ProtocolRouter: [handleMessage] *)

Definition pong : jsval := VObj {[ "type" := VStr "pong" ]}.

(** Lines 85-99, on the value [data] holds after the parsing step.
    [now] is what [performance.now()] returns. *)
Definition route (now : Q) (st : Receiver) (data : jsval)
  : Receiver * list Effect * outcome :=
  if nullish data then (st, [], Threw TypeError)
  else if is_string (prop data "type") "features" then
    match updateFeatures (features st) (prop data "data") with
    | (fs, Returned) =>
        (set_lastFeatureTime now (set_features fs st), [], Returned)
    | (fs, Threw e) => (set_features fs st, [], Threw e)
    end
  else if is_string (prop data "type") "vizIndex" then
    let st' := set_activeVizIndex (or_else (prop data "index") (VNum 0)) st in
    (st', [console_log [VStr "[GlowJack] Viz index:"; activeVizIndex st']], Returned)
  else if is_string (prop data "type") "ping" then
    (st, [sendCustomMessage NAMESPACE VUndef pong], Returned)
  else (st, [], Returned).

Definition handleMessage (now : Q) (st : Receiver) (data : jsval)
  : Receiver * list Effect * outcome :=
  match data with
  | VStr s =>
      match JSON_parse s with
      | Some data' => route now st data'
      | None => (st, [], Returned)
      end
  | _ => route now st data
  end.

(** ** Visualizers *)

Local Open Scope js_scope.

Definition of_Z (z : Z) : jsnum := Num (inject_Z z).
Definition of_nat (n : nat) : jsnum := of_Z (Z.of_nat n).

(** [a[k]] on a typed array: the element when [k] is an integer index
    in range, [undefined] otherwise. *)
Definition element (a : list jsnum) (k : jsnum) : jsval :=
  match k with
  | Num q =>
      if Qeq_bool q (inject_Z (Qfloor q)) && Qle_bool 0 q then
        match a !! Z.to_nat (Qfloor q) with
        | Some v => VNum v
        | None => VUndef
        end
      else VUndef
  | _ => VUndef
  end.

(** *** Nebula Swarm *)

Definition NEBULA_COUNT : nat := 200.

(** The [i]-th particle pushed by [initNebula]; seven calls of
    [Math.random()] each. *)
Definition initNebula_particle (w h : Z) (i : nat) : Particle.t :=
  let r (k : nat) : jsnum := Num (Math_random (7 * i + k)) in
  {| Particle.x := r 0%nat * of_Z w;
     Particle.y := r 1%nat * of_Z h;
     Particle.vx := (r 2%nat - 0.5) * 2;
     Particle.vy := (r 3%nat - 0.5) * 2;
     Particle.size := 2 + r 4%nat * 4;
     Particle.hue := r 5%nat * 360;
     Particle.life := r 6%nat |}.

Definition initNebula (w h : Z) : list Particle.t :=
  map (initNebula_particle w h) (seq 0 NEBULA_COUNT).

(** Lines 159-181: attraction, repulsion on a beat, swirl, damping and
    the move. *)
Definition nebula_move (st : Receiver) (p : Particle.t) : Particle.t :=
  let f := features st in
  let energyLow := ToNumber (energyLow f) in
  let beatPulse := ToNumber (beatPulse f) in
  let cx := of_Z (width st) / 2 in
  let cy := of_Z (height st) / 2 in
  let dx := cx - Particle.x p in
  let dy := cy - Particle.y p in
  let dist := Math_sqrt (dx * dx + dy * dy) + 1 in
  let attract := 0.5 + energyLow * 3 in
  let vx1 := Particle.vx p + (dx / dist) * attract * 0.01 in
  let vy1 := Particle.vy p + (dy / dist) * attract * 0.01 in
  let repel := 3 + beatPulse * 8 in
  let vx2 := if truthy (isBeat f) then vx1 - (dx / dist) * repel else vx1 in
  let vy2 := if truthy (isBeat f) then vy1 - (dy / dist) * repel else vy1 in
  let vx3 := vx2 + ((- dy) / dist) * 0.3 in
  let vy3 := vy2 + (dx / dist) * 0.3 in
  let vx4 := vx3 * 0.97 in
  let vy4 := vy3 * 0.97 in
  {| Particle.x := Particle.x p + vx4;
     Particle.y := Particle.y p + vy4;
     Particle.vx := vx4;
     Particle.vy := vy4;
     Particle.size := Particle.size p;
     Particle.hue := Particle.hue p;
     Particle.life := Particle.life p |}.

(** Lines 184-185 for x, 186-187 for y: the second test reads the
    coordinate the first one may have changed. *)
Definition wrap_axis (v extent : jsnum) : jsnum :=
  let v1 := if v <? 0 then v + extent else v in
  if v1 >? extent then v1 - extent else v1.

Definition nebula_wrap (st : Receiver) (p : Particle.t) : Particle.t :=
  {| Particle.x := wrap_axis (Particle.x p) (of_Z (width st));
     Particle.y := wrap_axis (Particle.y p) (of_Z (height st));
     Particle.vx := Particle.vx p;
     Particle.vy := Particle.vy p;
     Particle.size := Particle.size p;
     Particle.hue := Particle.hue p;
     Particle.life := Particle.life p |}.

(** Lines 190-206: colour cycling and the two discs. *)
Definition nebula_paint (st : Receiver) (p : Particle.t) : Particle.t * list DrawOp :=
  let f := features st in
  let energyHigh := ToNumber (energyHigh f) in
  let beatPulse := ToNumber (beatPulse f) in
  let amplitude := ToNumber (amplitude f) in
  let brightness := ToNumber (brightness f) in
  let hue := (Particle.hue p + 0.5 + energyHigh * 2) mod 360 in
  let sat := 70 + brightness * 30 in
  let alpha := 0.3 + amplitude * 0.5 + beatPulse * 0.2 in
  let size := Particle.size p * (1 + beatPulse * 2) in
  ({| Particle.x := Particle.x p;
      Particle.y := Particle.y p;
      Particle.vx := Particle.vx p;
      Particle.vy := Particle.vy p;
      Particle.size := Particle.size p;
      Particle.hue := hue;
      Particle.life := Particle.life p |},
   [ ctx_beginPath;
     ctx_arc (Particle.x p) (Particle.y p) size 0 (Math_PI * 2);
     ctx_fillStyle (solid (hsla hue sat 60 (Math_min alpha 1)));
     ctx_fill ]
   ++ (if size >? 3 then
         [ ctx_beginPath;
           ctx_arc (Particle.x p) (Particle.y p) (size * 2.5) 0 (Math_PI * 2);
           ctx_fillStyle (solid (hsla hue sat 60 (alpha * 0.1)));
           ctx_fill ]
       else [])).

(** One iteration of the loop over [nebulaParticles]. *)
Definition nebula_step (st : Receiver) (p : Particle.t) : Particle.t * list DrawOp :=
  nebula_paint st (nebula_wrap st (nebula_move st p)).

Definition set_nebulaParticles (ps : list Particle.t) (st : Receiver) : Receiver := {|
  width := width st; height := height st;
  activeVizIndex := activeVizIndex st;
  features := features st;
  lastFeatureTime := lastFeatureTime st;
  time := time st;
  nebulaParticles := ps;
  tunnelRings := tunnelRings st;
  randomCalls := randomCalls st;
|}.

Definition drawNebula (st : Receiver) : Receiver * list DrawOp :=
  let steps := map (nebula_step st) (nebulaParticles st) in
  (set_nebulaParticles (map fst steps) st, concat (map snd steps)).

(** *** Bass Tunnel *)

Definition MAX_RINGS : nat := 30.

Definition set_tunnel (rings : list Ring.t) (calls : nat) (st : Receiver) : Receiver := {|
  width := width st; height := height st;
  activeVizIndex := activeVizIndex st;
  features := features st;
  lastFeatureTime := lastFeatureTime st;
  time := time st;
  nebulaParticles := nebulaParticles st;
  tunnelRings := rings;
  randomCalls := calls;
|}.

(** The ring pushed at lines 223-230; [calls] is the number of calls of
    [Math.random()] made before the object literal is evaluated. *)
Definition new_ring (f : FeatureState) (calls : nat) : Ring.t :=
  let energyLow := ToNumber (energyLow f) in
  let beatPulse := ToNumber (beatPulse f) in
  {| Ring.radius := if truthy (isBeat f) then 8 else 3;
     Ring.thickness :=
       if truthy (isBeat f) then 4 + beatPulse * 8 else 2 + energyLow * 4;
     Ring.alpha := 1;
     Ring.hue := Num (Math_random calls) * 60;
     Ring.waveOff := Num (Math_random (S calls));
     Ring.waveAmp := 0.3 + ToNumber (amplitude f) * 1.5 |}.

(** Lines 219-232.  [Math.random()] is called once for the test, and
    twice more when a ring is pushed. *)
Definition tunnel_spawn (f : FeatureState) (rings : list Ring.t) (calls : nat)
  : list Ring.t * nat :=
  let energyLow := ToNumber (energyLow f) in
  let spawnRate := 0.3 + energyLow * 4 in
  if (Num (Math_random calls) <? spawnRate * 0.016) || truthy (isBeat f) then
    if (length rings <? MAX_RINGS)%nat then
      (rings ++ [new_ring f (S calls)], (3 + calls)%nat)
    else (rings, S calls)
  else (rings, S calls).

(** Lines 240-241. *)
Definition grow (speed maxR : jsnum) (ring : Ring.t) : Ring.t :=
  let radius := Ring.radius ring + speed * 0.016 in
  {| Ring.radius := radius;
     Ring.thickness := Ring.thickness ring;
     Ring.alpha := Math_max 0 (1 - radius / maxR);
     Ring.hue := Ring.hue ring;
     Ring.waveOff := Ring.waveOff ring;
     Ring.waveAmp := Ring.waveAmp ring |}.

(** The test of line 243. *)
Definition expired (maxR : jsnum) (ring : Ring.t) : bool :=
  (Ring.radius ring >? maxR) || (Ring.alpha ring <? 0.02).

(** Line 257: the index before the absolute value. *)
Definition ring_wIdx (p : nat) (waveOff : jsnum) (len : nat) : jsnum :=
  Math_floor (((of_nat p / 72) + waveOff) * of_nat len) mod of_nat len.

(** Lines 254-263: the [p]-th point of a ring's outline. *)
Definition ring_point (st : Receiver) (ring : Ring.t) (p : nat) : DrawOp :=
  let waveform := waveform (features st) in
  let cx := of_Z (width st) / 2 in
  let cy := of_Z (height st) / 2 in
  let angle := (of_nat p / 72) * Math_PI * 2 in
  let waveDisp :=
    if (0 <? length waveform)%nat then
      let wIdx := ring_wIdx p (Ring.waveOff ring) (length waveform) in
      ToNumber (element waveform (Math_abs wIdx))
        * Ring.waveAmp ring * Ring.radius ring * 0.15
    else 0 in
  let r := Ring.radius ring + waveDisp in
  let x := cx + Math_cos angle * r in
  let y := cy + Math_sin angle * r in
  if (p =? 0)%nat then ctx_moveTo x y else ctx_lineTo x y.

(** Lines 248-268: the outline of one ring. *)
Definition ring_stroke (st : Receiver) (ring : Ring.t) : list DrawOp :=
  let f := features st in
  let beatPulse := ToNumber (beatPulse f) in
  let warm := ToNumber (brightness f) >? 0.5 in
  let hue := if warm then Ring.hue ring else Ring.hue ring + 180 in
  let thickness := Ring.thickness ring * (1 + beatPulse * 2) in
  [ctx_beginPath]
  ++ map (ring_point st ring) (seq 0 73)
  ++ [ ctx_closePath;
       ctx_strokeStyle (solid (hsla hue 70 60 (Ring.alpha ring * 0.8)));
       ctx_lineWidth thickness;
       ctx_stroke ].

(** Lines 238-269: the loop runs [i] from [n - 1] down to [0]; an expired
    ring is spliced out at its index, the others are updated in place
    and drawn.  The loop starts at [length - 1] and only removes at the
    current index, so [tunnelRings[i]] is always there. *)
Fixpoint ring_loop (st : Receiver) (speed maxR : jsnum) (n : nat)
    (rings : list Ring.t) (ops : list DrawOp) : list Ring.t * list DrawOp :=
  match n with
  | O => (rings, ops)
  | S i =>
      match rings !! i with
      | None => (rings, ops)
      | Some ring =>
          let ring' := grow speed maxR ring in
          if expired maxR ring'
          then ring_loop st speed maxR i (delete i rings) ops
          else ring_loop st speed maxR i (<[i := ring']> rings)
                 (ops ++ ring_stroke st ring')
      end
  end.

(** Lines 271-277. *)
Definition center_glow (st : Receiver) : list DrawOp :=
  let f := features st in
  let energyLow := ToNumber (energyLow f) in
  let beatPulse := ToNumber (beatPulse f) in
  let warm := ToNumber (brightness f) >? 0.5 in
  let cx := of_Z (width st) / 2 in
  let cy := of_Z (height st) / 2 in
  let glowA := Math_min 0.6 (energyLow * 0.4 + beatPulse * 0.3) in
  [ ctx_fillStyle
      (radialGradient cx cy 0 cx cy (40 + energyLow * 60)
         [ (Num 0, hsla (if warm then 20 else 200) 60 60 glowA);
           (Num 1, transparent) ]);
    ctx_fillRect 0 0 (of_Z (width st)) (of_Z (height st)) ].

(** Line 217. *)
Definition tunnel_maxR (st : Receiver) : jsnum :=
  Math_min (of_Z (width st)) (of_Z (height st)) * 0.45.

(** Line 235. *)
Definition tunnel_speed (st : Receiver) : jsnum :=
  80 + ToNumber (energyLow (features st)) * 300.

Definition drawBassTunnel (st : Receiver) : Receiver * list DrawOp :=
  let maxR := tunnel_maxR st in
  let '(spawned, calls) :=
    tunnel_spawn (features st) (tunnelRings st) (randomCalls st) in
  let speed := tunnel_speed st in
  let '(rings, ops) := ring_loop st speed maxR (length spawned) spawned [] in
  (set_tunnel rings calls st, ops ++ center_glow st).

(** *** Ribbon Flow *)

(** Line 295: the index before the absolute value. *)
Definition ribbon_wIdx (t : jsnum) (r : nat) (time : Q) (len : nat) : jsnum :=
  Math_floor ((t + of_nat r * 0.1 + Num time * 0.05) * of_nat len) mod of_nat len.

(** The values [x] takes in [for (let x = 0; x <= width; x += 4)]. *)
Definition ribbon_xs (w : Z) : list Z :=
  map (λ k, (4 * Z.of_nat k)%Z) (seq 0 (Z.to_nat (w / 4 + 1))).

(** Line 299: the number that the product reads from [1 + v].  On a
    string, an array or an object [+] concatenates, and the product
    converts the resulting string. *)
Definition one_plus (v : jsval) : jsnum :=
  match v with
  | VStr s => ToNumber_host (VStr (String.append "1" s))
  | VArr _ | VObj _ =>
      ToNumber_host (VStr (String.append "1" (ToString_host v)))
  | _ => 1 + ToNumber v
  end.

(** Lines 292-301. *)
Definition ribbon_point (st : Receiver) (r : nat) (x : Z) : DrawOp :=
  let f := features st in
  let energyLow := ToNumber (energyLow f) in
  let waveform := waveform f in
  let baseY := of_Z (height st) * (0.15 + of_nat r * 0.12) in
  let t := of_Z x / of_Z (width st) in
  let waveVal :=
    if (0 <? length waveform)%nat then
      let wIdx := ribbon_wIdx t r (time st) (length waveform) in
      element waveform (Math_abs wIdx)
    else VNum 0 in
  let displacement :=
    ToNumber waveVal * 80 * (1 + energyLow * 2)
    + Math_sin (t * 6 + Num (time st) * 2 + of_nat r) * 20
      * one_plus (energyHigh f) in
  let y := baseY + displacement in
  if (x =? 0)%Z then ctx_moveTo (of_Z x) y else ctx_lineTo (of_Z x) y.

(** Lines 286-306: one ribbon. *)
Definition ribbon (st : Receiver) (r : nat) : list DrawOp :=
  let f := features st in
  let energyLow := ToNumber (energyLow f) in
  let energyMid := ToNumber (energyMid f) in
  let beatPulse := ToNumber (beatPulse f) in
  let brightness := ToNumber (brightness f) in
  let hue := (of_nat r * 50 + Num (time st) * 30) mod 360 in
  let alpha := 0.3 + energyMid * 0.4 + beatPulse * 0.2 in
  [ctx_beginPath]
  ++ map (ribbon_point st r) (ribbon_xs (width st))
  ++ [ ctx_strokeStyle
         (solid (hsla hue (60 + brightness * 30) 55 (Math_min alpha 0.8)));
       ctx_lineWidth (2 + energyLow * 3 + beatPulse * 4);
       ctx_lineCap "round";
       ctx_stroke ].

Definition drawRibbonFlow (st : Receiver) : Receiver * list DrawOp :=
  (st, concat (map (ribbon st) (seq 0 6))).

(** *** Pulse Grid *)

(** Lines 318-339: the cell of column [gx], row [gy]. *)
Definition grid_cell (st : Receiver) (gy gx : nat) : list DrawOp :=
  let f := features st in
  let beatPulse := ToNumber (beatPulse f) in
  let brightness := ToNumber (brightness f) in
  let fftMagnitudes := fftMagnitudes f in
  let cellW := of_Z (width st) / 16 in
  let cellH := of_Z (height st) / 10 in
  let cx := cellW * (of_nat gx + 0.5) in
  let cy := cellH * (of_nat gy + 0.5) in
  let fftIdx := Math_floor ((of_nat gx / 16) * of_nat (length fftMagnitudes)) in
  let energy := ToNumber (or_else (element fftMagnitudes fftIdx) (VNum 0)) in
  let radius := 3 + energy * cellW * 0.4 + beatPulse * 5 in
  let hue := (of_nat gx * 20 + of_nat gy * 30 + Num (time st) * 40) mod 360 in
  let alpha := 0.2 + energy * 0.6 + beatPulse * 0.2 in
  [ ctx_beginPath;
    ctx_arc cx cy (radius * 2) 0 (Math_PI * 2);
    ctx_fillStyle (solid (hsla hue 70 50 (alpha * 0.15)));
    ctx_fill;
    ctx_beginPath;
    ctx_arc cx cy radius 0 (Math_PI * 2);
    ctx_fillStyle
      (solid (hsla hue (60 + brightness * 30) 55 (Math_min alpha 0.9)));
    ctx_fill ].

Definition drawPulseGrid (st : Receiver) : Receiver * list DrawOp :=
  (st, concat (map (λ gy, concat (map (grid_cell st gy) (seq 0 16))) (seq 0 10))).

(** ** FrameScheduler: [render] *)

Definition set_time (t : Q) (st : Receiver) : Receiver := {|
  width := width st; height := height st;
  activeVizIndex := activeVizIndex st;
  features := features st;
  lastFeatureTime := lastFeatureTime st;
  time := t;
  nebulaParticles := nebulaParticles st;
  tunnelRings := tunnelRings st;
  randomCalls := randomCalls st;
|}.

(** Lines 355-360. *)
Definition decay (f : FeatureState) : FeatureState := {|
  energyLow := VNum (ToNumber (energyLow f) * 0.95);
  energyMid := VNum (ToNumber (energyMid f) * 0.95);
  energyHigh := VNum (ToNumber (energyHigh f) * 0.95);
  beatPulse := VNum (ToNumber (beatPulse f) * 0.9);
  isBeat := VBool false;
  beatCount := beatCount f;
  beatPhase := beatPhase f;
  tempoBpm := tempoBpm f;
  brightness := brightness f;
  roughness := roughness f;
  sectionEnergy := sectionEnergy f;
  amplitude := VNum (ToNumber (amplitude f) * 0.95);
  waveform := waveform f;
  fftMagnitudes := fftMagnitudes f;
|}.

(** Lines 353-361; [now] is what [performance.now()] returns. *)
Definition decay_if_stale (now : Q) (st : Receiver) : Receiver :=
  let timeSinceFeature := (now - lastFeatureTime st)%Q in
  if Qlt_bool 200 timeSinceFeature
  then set_features (decay (features st)) st
  else st.

(** Lines 364-370. *)
Definition dispatch (st : Receiver) : Receiver * list DrawOp :=
  if is_number (activeVizIndex st) 0 then drawNebula st
  else if is_number (activeVizIndex st) 1 then drawBassTunnel st
  else if is_number (activeVizIndex st) 2 then drawRibbonFlow st
  else if is_number (activeVizIndex st) 3 then drawPulseGrid st
  else drawNebula st.

(** Lines 349-350. *)
Definition fade (st : Receiver) : list DrawOp :=
  [ ctx_fillStyle (solid (rgba 0 0 0 0.15));
    ctx_fillRect 0 0 (of_Z (width st)) (of_Z (height st)) ].

(** Lines 346 and 353-361: the variables as the visualizer of the frame
    reads them, the clock advanced and the feature state decayed if
    stale. *)
Definition frame_view (now : Q) (st : Receiver) : Receiver :=
  decay_if_stale now (set_time (time st + 0.016)%Q st).

(** One animation frame.  The closing [requestAnimationFrame(render)]
    asks the browser for the next one. *)
Definition render (now : Q) (st : Receiver) : Receiver * list DrawOp :=
  let '(st', ops) := dispatch (frame_view now st) in
  (st', fade st ++ ops).

(** ** Start-up and the callbacks *)

Definition resize (innerWidth innerHeight : Z) (st : Receiver) : Receiver := {|
  width := innerWidth; height := innerHeight;
  activeVizIndex := activeVizIndex st;
  features := features st;
  lastFeatureTime := lastFeatureTime st;
  time := time st;
  nebulaParticles := nebulaParticles st;
  tunnelRings := tunnelRings st;
  randomCalls := randomCalls st;
|}.

(** The variables after [initCanvas()] and [initNebula()] in the load
    handler, for a window of the given size. *)
Definition loaded (innerWidth innerHeight : Z) : Receiver := {|
  width := innerWidth; height := innerHeight;
  activeVizIndex := VNum 0;
  features := initial_features;
  lastFeatureTime := 0;
  time := 0;
  nebulaParticles := initNebula innerWidth innerHeight;
  tunnelRings := [];
  randomCalls := (7 * NEBULA_COUNT)%nat;
|}.

(** What the browser can call afterwards. *)
Inductive Event :=
| Message (data : jsval) (now : Q)
| Frame (now : Q)
| Resized (innerWidth innerHeight : Z).

Definition step (st : Receiver) (ev : Event) : Receiver :=
  match ev with
  | Message data now => (handleMessage now st data).1.1
  | Frame now => (render now st).1
  | Resized w h => resize w h st
  end.

Definition run (st : Receiver) (evs : list Event) : Receiver :=
  fold_left step evs st.

End Receiver.

(** ** Sender connection: the listeners of [initCastReceiver]

    The variable [connected], the class [hidden] of the status element,
    the pending [setTimeout] callbacks (by due time) and whether
    [context.stop()] has been called.  No other function reads or
    writes them. *)

Record Link := {
  connected : bool;
  status_hidden : bool;
  timeouts : list Q;
  stopped : bool;
}.

(** After [initCastReceiver()]; [hidden] is the class the page gives the
    status element. *)
Definition initCastReceiver (hidden : bool) : Link := {|
  connected := false;
  status_hidden := hidden;
  timeouts := [];
  stopped := false;
|}.

(** Lines 54-58. *)
Definition on_sender_connected (l : Link) : Link := {|
  connected := true;
  status_hidden := true;
  timeouts := timeouts l;
  stopped := stopped l;
|}.

(** Lines 62-73; [now] is the instant of the call of [setTimeout]. *)
Definition on_sender_disconnected (now : Q) (l : Link) : Link := {|
  connected := false;
  status_hidden := false;
  timeouts := timeouts l ++ [(now + 30000)%Q];
  stopped := stopped l;
|}.

(** Lines 69-71: the callback of the timeout. *)
Definition on_timeout (l : Link) : Link :=
  if negb (connected l) then
    {| connected := connected l;
       status_hidden := status_hidden l;
       timeouts := timeouts l;
       stopped := true |}
  else l.

(** The clock reaches [now]: the callbacks that are due run, in the
    order they were scheduled, and leave the pending list. *)
Definition elapse (now : Q) (l : Link) : Link :=
  let due := List.filter (λ t, Qle_bool t now) (timeouts l) in
  let later := List.filter (λ t, negb (Qle_bool t now)) (timeouts l) in
  fold_left (λ acc _, on_timeout acc) due
    {| connected := connected l;
       status_hidden := status_hidden l;
       timeouts := later;
       stopped := stopped l |}.

(** What the event loop delivers, each at its instant: the two sender
    events, and the passing of time with no event.  Timers are punctual:
    a callback runs as soon as the clock reaches its due time. *)
Inductive LinkEvent :=
| SenderConnected (now : Q)
| SenderDisconnected (now : Q)
| Elapsed (now : Q).

Definition instant (ev : LinkEvent) : Q :=
  match ev with
  | SenderConnected now | SenderDisconnected now | Elapsed now => now
  end.

(** The callbacks due at the instant of an event run before its
    listener. *)
Definition link_step (l : Link) (ev : LinkEvent) : Link :=
  let l := elapse (instant ev) l in
  match ev with
  | SenderConnected _ => on_sender_connected l
  | SenderDisconnected now => on_sender_disconnected now l
  | Elapsed _ => l
  end.

Definition link_run (l : Link) (evs : list LinkEvent) : Link :=
  fold_left link_step evs l.

(** ** Vocabulary of the properties *)

(** The twelve scalar fields of the feature vector. *)
Inductive Scalar :=
| SenergyLow | SenergyMid | SenergyHigh | SbeatPulse | SisBeat | SbeatCount
| SbeatPhase | StempoBpm | Sbrightness | Sroughness | SsectionEnergy | Samplitude.

Definition scalar_name (k : Scalar) : string :=
  match k with
  | SenergyLow => "energyLow" | SenergyMid => "energyMid"
  | SenergyHigh => "energyHigh" | SbeatPulse => "beatPulse"
  | SisBeat => "isBeat" | SbeatCount => "beatCount"
  | SbeatPhase => "beatPhase" | StempoBpm => "tempoBpm"
  | Sbrightness => "brightness" | Sroughness => "roughness"
  | SsectionEnergy => "sectionEnergy" | Samplitude => "amplitude"
  end.

Definition scalar_of (k : Scalar) (fs : FeatureState) : jsval :=
  match k with
  | SenergyLow => energyLow fs | SenergyMid => energyMid fs
  | SenergyHigh => energyHigh fs | SbeatPulse => beatPulse fs
  | SisBeat => isBeat fs | SbeatCount => beatCount fs
  | SbeatPhase => beatPhase fs | StempoBpm => tempoBpm fs
  | Sbrightness => brightness fs | Sroughness => roughness fs
  | SsectionEnergy => sectionEnergy fs | Samplitude => amplitude fs
  end.

(** The documented defaults: 0, false, tempo 120, brightness 0.5. *)
Definition scalar_default (k : Scalar) : jsval :=
  match k with
  | SisBeat => VBool false
  | StempoBpm => VNum 120
  | Sbrightness => VNum 0.5
  | _ => VNum 0
  end.

(** The documented type of a field: a boolean for [isBeat], a finite
    number for the others. *)
Definition well_typed (k : Scalar) (v : jsval) : bool :=
  match k, v with
  | SisBeat, VBool _ => true
  | SisBeat, _ => false
  | _, VNum (Num _) => true
  | _, _ => false
  end.

Definition no_nullish (fs : FeatureState) : Prop :=
  ∀ k, nullish (scalar_of k fs) = false.




Definition huge : Q := 1e300.


(** The rings a frame keeps: those the test of line 243 lets through. *)
Definition kept (maxR : jsnum) (ring : Ring.t) : bool := negb (expired maxR ring).

(** A ring whose phase offset is a number in [0, 1), as [Math.random()]
    gives it. *)
Definition waveOff_in_unit (ring : Ring.t) : Prop :=
  ∃ q, Ring.waveOff ring = Num q ∧ 0 <= q ∧ q < 1.

(** What holds of the variables at every moment of a session. *)
Definition steady (st : Receiver) : Prop :=
  (length (tunnelRings st) <= MAX_RINGS)%nat
  ∧ Forall waveOff_in_unit (tunnelRings st)
  ∧ 0 <= time st.

(** Lines 364-370: the swarm is drawn for the index 0 and for every
    index that is none of 1, 2, 3. *)
Definition swarm_active `{Host} (v : jsval) : bool :=
  is_number v 0 || negb (is_number v 1 || is_number v 2 || is_number v 3).

(** Line 196: no disc of the swarm has a negative radius, which
    [ctx.arc] refuses with an IndexSizeError. *)
Definition discs_drawable `{Host} (st : Receiver) : bool :=
  forallb
    (λ p, negb
            (js_lt
               (js_mul (Particle.size p)
                  (js_add (Num 1)
                     (js_mul (ToNumber (beatPulse (features st))) (Num 2))))
               (Num 0)))
    (nebulaParticles st).

(** An index value that is none of the numbers 0, 1, 2, 3. *)
Definition unknown_index (v : jsval) : Prop :=
  ∀ q, v = VNum (Num q) → ¬ (q == 0 ∨ q == 1 ∨ q == 2 ∨ q == 3).

(** A sample index that is a whole number within a buffer of [len]
    elements and that the absolute value leaves as it is. *)
Definition in_bounds (i : jsnum) (len : nat) : Prop :=
  ∃ (q : Q) (k : Z),
    i = Num q ∧ q == inject_Z k ∧ (0 <= k < Z.of_nat len)%Z ∧ Math_abs i = i.

(** The payload [data] carries the value [v]: it is [v] itself, or a
    string that [JSON.parse] turns into [v]. *)
Definition decoded `{Host} (data v : jsval) : Prop :=
  match data with
  | VStr s => JSON_parse s = Some v
  | _ => data = v
  end.

(** The frames among the events. *)
Definition is_frame (ev : Event) : bool :=
  match ev with
  | Frame _ => true
  | _ => false
  end.

(** The visualizer of a known index. *)
Definition visualizer `{Host} (k : Z) : Receiver → Receiver * list DrawOp :=
  match k with
  | 1%Z => drawBassTunnel
  | 2%Z => drawRibbonFlow
  | 3%Z => drawPulseGrid
  | _ => drawNebula
  end.



(** What the last sender event of a sequence was: [Some true] for a
    connection, [Some false] for a disconnection. *)
Definition latest_connection (evs : list LinkEvent) : option bool :=
  fold_left
    (λ acc ev,
       match ev with
       | SenderConnected _ => Some true
       | SenderDisconnected _ => Some false
       | Elapsed _ => acc
       end) evs None.

(** The senders connected after a sequence of events that starts with
    none. *)
Definition senders (evs : list LinkEvent) : Z :=
  fold_left
    (λ n ev,
       match ev with
       | SenderConnected _ => (n + 1)%Z
       | SenderDisconnected _ => (n - 1)%Z
       | Elapsed _ => n
       end) evs 0%Z.

(** The timeout of a disconnection fires in a sequence of events: the
    disconnection at [t], then events before [t] + 30000 only, then an
    event at [t] + 30000 or later, whose instant finds [connected]
    false. *)
Definition timeout_fires (l : Link) (evs : list LinkEvent) : Prop :=
  ∃ before t between ev after,
    evs = before ++ SenderDisconnected t :: between ++ ev :: after
    ∧ Forall (λ e, instant e < t + 30000) between
    ∧ t + 30000 <= instant ev
    ∧ connected (link_run l (before ++ SenderDisconnected t :: between)) = false.

(** A pending callback is the one of an earlier disconnection, and
    every event since came before it was due. *)
Definition pending_of (evs : list LinkEvent) (d : Q) : Prop :=
  ∃ before t between,
    evs = before ++ SenderDisconnected t :: between
    ∧ d = t + 30000
    ∧ Forall (λ e, instant e < t + 30000) between.

(** The three message types the router knows. *)
Definition known_type (v : jsval) : Prop :=
  v = VStr "features" ∨ v = VStr "vizIndex" ∨ v = VStr "ping".

(** ** Sample messages

    A [features] message carrying [data], a [vizIndex] message carrying
    [index], and three feature updates. *)
Definition features_message (data : jsval) : jsval :=
  VObj (<["type" := VStr "features"]> {[ "data" := data ]}).

Definition vizIndex_message (index : jsval) : jsval :=
  VObj (<["type" := VStr "vizIndex"]> {[ "index" := index ]}).

Definition scenario_update : jsval :=
  VObj (<["energyLow" := VNum 0.8]>
          (<["amplitude" := VNum 0.9]> {[ "isBeat" := VBool true ]})).

Definition negative_energy : jsval :=
  VObj (<["energyLow" := VNum (-0.5)]> {[ "isBeat" := VBool true ]}).


Definition tempo_update : jsval := VObj {[ "tempoBpm" := VNum 90 ]}.

Definition bad_waveform_update : jsval :=
  VObj (<["energyLow" := VNum 0.8]> {[ "waveform" := VNum (-1) ]}).

(** ** A small host, to evaluate the receiver on concrete inputs

    Its parser knows four texts and rejects every other one, its
    typed-array constructor covers arrays and lengths, its square root
    is the integer one and its trigonometry is that of angle zero. *)

Definition stub_parse (s : string) : option jsval :=
  if String.eqb s "null" then Some VNull
  else if String.eqb s "true" then Some (VBool true)
  else if String.eqb s "false" then Some (VBool false)
  else if String.eqb s "0" then Some (VNum 0)
  else None.

Definition stub_item (v : jsval) : jsnum :=
  match v with
  | VNum n => n
  | VNull => Num 0
  | VBool b => if b then Num 1 else Num 0
  | _ => NaN
  end.

Definition stub_Float32Array (v : jsval) : option (list jsnum) :=
  match v with
  | VArr items => Some (map stub_item items)
  | VNum (Num q) =>
      if Qle_bool q (-1) then None
      else Some (replicate (Z.to_nat (Qtrunc q)) (Num 0))
  | VNum _ => None
  | VBool _ => Some [Num 0]
  | _ => Some []
  end.

Definition stub_random (n : nat) : Q := Z.of_nat (n mod 10) # 10.

Definition stub_sqrt (a : jsnum) : jsnum :=
  match a with
  | Num q => if Qle_bool 0 q then Num (inject_Z (Z.sqrt (Qfloor q))) else NaN
  | Inf false => Inf false
  | _ => NaN
  end.

#[local] Instance stub_host : Host := {|
  JSON_parse := stub_parse;
  JSON_parse_null := eq_refl;
  ToNumber_host := λ _, NaN;
  ToString_host := λ _, "";
  Float32Array_from := stub_Float32Array;
  Math_random := stub_random;
  Math_random_range :=
    ltac:(intros n; unfold stub_random, Qle, Qlt; simpl;
          pose proof (Nat.mod_upper_bound n 10); lia);
  Math_sqrt := stub_sqrt;
  Math_sin := λ _, Num 0;
  Math_cos := λ _, Num 1;
  Math_PI := Num 3.14159;
|}.

(** ** Properties *)

Lemma Qlt_bool_iff (x y : Q) : Qlt_bool x y = true ↔ x < y.
Proof.
  unfold Qlt_bool. rewrite negb_true_iff.
  destruct (Qle_bool y x) eqn:E.
  - apply Qle_bool_iff in E. split; [discriminate | intros; lra].
  - split; [intros _ | reflexivity].
    destruct (Qlt_le_dec x y) as [L | L]; [exact L |].
    apply Qle_bool_iff in L. congruence.
Qed.

Lemma Qlt_bool_false (x y : Q) : Qlt_bool x y = false ↔ y <= x.
Proof.
  unfold Qlt_bool. rewrite negb_false_iff. apply Qle_bool_iff.
Qed.

Lemma Qeq_bool_false (x y : Q) : Qeq_bool x y = false ↔ ¬ x == y.
Proof.
  destruct (Qeq_bool x y) eqn:E.
  - apply Qeq_bool_iff in E. split; [discriminate | tauto].
  - split; [| reflexivity]. intros _ K. apply Qeq_bool_iff in K. congruence.
Qed.

Section Properties.
Context `{Host}.

(** *** The feature update *)

Lemma or_else_truthy (a d : jsval) : truthy a = true → or_else a d = a.
Proof. unfold or_else. intros ->. reflexivity. Qed.

Lemma or_else_falsy (a d : jsval) : truthy a = false → or_else a d = d.
Proof. unfold or_else. intros ->. reflexivity. Qed.

Lemma truthy_not_nullish (v : jsval) : truthy v = true → nullish v = false.
Proof. destruct v; simpl; congruence. Qed.

Lemma or_else_not_nullish (a d : jsval) :
  nullish d = false → nullish (or_else a d) = false.
Proof.
  unfold or_else. destruct (truthy a) eqn:E; [| tauto].
  intros _. apply truthy_not_nullish, E.
Qed.

Lemma scalar_of_assign (fs : FeatureState) (f : jsval) (k : Scalar) :
  scalar_of k (assign_scalars fs f)
  = or_else (prop f (scalar_name k)) (scalar_default k).
Proof. destruct k; reflexivity. Qed.

Lemma scalar_of_assign_waveform (fs : FeatureState) (f : jsval) (k : Scalar) :
  scalar_of k (assign_waveform fs f).1 = scalar_of k fs.
Proof.
  unfold assign_waveform.
  destruct (truthy _); [destruct (Float32Array_from _) |]; destruct k; reflexivity.
Qed.

Lemma scalar_of_assign_fftMagnitudes (fs : FeatureState) (f : jsval) (k : Scalar) :
  scalar_of k (assign_fftMagnitudes fs f).1 = scalar_of k fs.
Proof.
  unfold assign_fftMagnitudes.
  destruct (truthy _); [destruct (Float32Array_from _) |]; destruct k; reflexivity.
Qed.

Lemma waveform_assign_fftMagnitudes (fs : FeatureState) (f : jsval) :
  waveform (assign_fftMagnitudes fs f).1 = waveform fs.
Proof.
  unfold assign_fftMagnitudes.
  destruct (truthy _); [destruct (Float32Array_from _) |]; reflexivity.
Qed.

Lemma fftMagnitudes_assign_waveform (fs : FeatureState) (f : jsval) :
  fftMagnitudes (assign_waveform (assign_scalars fs f) f).1 = fftMagnitudes fs.
Proof.
  unfold assign_waveform.
  destruct (truthy (prop f "waveform"));
    [destruct (Float32Array_from _) |]; reflexivity.
Qed.

(** With a truthy argument the call is the three assignment steps. *)
Lemma updateFeatures_truthy (fs : FeatureState) (f : jsval) :
  truthy f = true →
  updateFeatures fs f =
    match assign_waveform (assign_scalars fs f) f with
    | (fs1, Returned) => assign_fftMagnitudes fs1 f
    | (fs1, Threw e) => (fs1, Threw e)
    end.
Proof. unfold updateFeatures. intros ->. reflexivity. Qed.

Lemma scalar_of_updateFeatures (fs : FeatureState) (f : jsval) (k : Scalar) :
  truthy f = true →
  scalar_of k (updateFeatures fs f).1
  = or_else (prop f (scalar_name k)) (scalar_default k).
Proof.
  intros T. rewrite (updateFeatures_truthy _ _ T).
  rewrite <- scalar_of_assign with (fs := fs).
  rewrite <- (scalar_of_assign_waveform (assign_scalars fs f) f k).
  destruct (assign_waveform (assign_scalars fs f) f) as [fs1 [|e]]; simpl.
  - apply scalar_of_assign_fftMagnitudes.
  - reflexivity.
Qed.

(** C1 (amended).  [updateFeatures] with a falsy argument changes
    nothing.  With a truthy one, every scalar field whose value in the
    update is absent or falsy takes its documented default (0, false,
    tempo 120, brightness 0.5) and every truthy value is stored as it
    is, whatever its type; no scalar field that was defined becomes
    undefined or null; [waveform] and [fftMagnitudes] are each left as
    they are when the update has no truthy value for them; [waveform]
    is replaced by the whole typed array the constructor builds from a
    truthy value when the constructor accepts it, and [fftMagnitudes]
    likewise when, in addition, the assignment of [waveform] before it
    did not throw. *)
Theorem updateFeatures_fallback (fs : FeatureState) (f : jsval) :
  let fs' := (updateFeatures fs f).1 in
  (truthy f = false → updateFeatures fs f = (fs, Returned))
  ∧ (truthy f = true → ∀ k,
       (truthy (prop f (scalar_name k)) = false →
          scalar_of k fs' = scalar_default k)
       ∧ (truthy (prop f (scalar_name k)) = true →
          scalar_of k fs' = prop f (scalar_name k)))
  ∧ (no_nullish fs → no_nullish fs')
  ∧ (truthy f = true → truthy (prop f "waveform") = false →
       waveform fs' = waveform fs)
  ∧ (truthy f = true → truthy (prop f "waveform") = true →
       ∀ w, Float32Array_from (prop f "waveform") = Some w →
       waveform fs' = w)
  ∧ (truthy f = true → truthy (prop f "fftMagnitudes") = false →
       fftMagnitudes fs' = fftMagnitudes fs)
  ∧ (truthy f = true → truthy (prop f "fftMagnitudes") = true →
       (assign_waveform (assign_scalars fs f) f).2 = Returned →
       ∀ m, Float32Array_from (prop f "fftMagnitudes") = Some m →
       fftMagnitudes fs' = m).
Proof.
  intros fs'. subst fs'. repeat split.
  - unfold updateFeatures. intros ->. reflexivity.
  - intros F. rewrite scalar_of_updateFeatures by assumption.
    now apply or_else_falsy.
  - intros F. rewrite scalar_of_updateFeatures by assumption.
    now apply or_else_truthy.
  - intros N k. destruct (truthy f) eqn:T.
    + rewrite scalar_of_updateFeatures by assumption.
      apply or_else_not_nullish. destruct k; reflexivity.
    + unfold updateFeatures. rewrite T. apply N.
  - intros T W. rewrite (updateFeatures_truthy _ _ T).
    unfold assign_waveform. rewrite W.
    rewrite waveform_assign_fftMagnitudes. reflexivity.
  - intros T W w E. rewrite (updateFeatures_truthy _ _ T).
    unfold assign_waveform. rewrite W, E.
    rewrite waveform_assign_fftMagnitudes. reflexivity.
  - intros T M. rewrite (updateFeatures_truthy _ _ T).
    destruct (assign_waveform (assign_scalars fs f) f) as [fs1 [|e]] eqn:E.
    + unfold assign_fftMagnitudes. rewrite M. simpl.
      change fs1 with (fs1, Returned).1. rewrite <- E.
      apply fftMagnitudes_assign_waveform.
    + simpl. change fs1 with (fs1, Threw e).1. rewrite <- E.
      apply fftMagnitudes_assign_waveform.
  - intros T M R m E. rewrite (updateFeatures_truthy _ _ T).
    destruct (assign_waveform (assign_scalars fs f) f) as [fs1 [|e]];
      [| discriminate R].
    unfold assign_fftMagnitudes. rewrite M, E. reflexivity.
Qed.

(** *** The protocol router *)

Lemma prop_lookup (o : gmap string jsval) (k : string) (v : jsval) :
  o !! k = Some v → prop (VObj o) k = v.
Proof. unfold prop. intros ->. reflexivity. Qed.

Lemma handleMessage_decoded (now : Q) (st : Receiver) (data v : jsval) :
  decoded data v → handleMessage now st data = route now st v.
Proof.
  unfold decoded, handleMessage.
  destruct data; intros E; try (rewrite E); try reflexivity.
  all: subst; reflexivity.
Qed.

(** A string that does not parse is dropped. *)
Lemma handleMessage_unparseable (now : Q) (st : Receiver) (s : string) :
  JSON_parse s = None → handleMessage now st (VStr s) = (st, [], Returned).
Proof. unfold handleMessage. intros ->. reflexivity. Qed.

(** So is a value that is not nullish and whose [type] is none of the
    three known ones. *)
Lemma route_unknown_type (now : Q) (st : Receiver) (v : jsval) :
  nullish v = false →
  is_string (prop v "type") "features" = false →
  is_string (prop v "type") "vizIndex" = false →
  is_string (prop v "type") "ping" = false →
  route now st v = (st, [], Returned).
Proof. unfold route. intros -> -> -> ->. reflexivity. Qed.

Lemma set_features_same (st : Receiver) : set_features (features st) st = st.
Proof. destruct st; reflexivity. Qed.

(** C4 (fails on the code).  The payload [null], and the string [null]
    that parses to it, make [handleMessage] throw a TypeError when it
    reads [data.type]; the variables are left as they were. *)
Theorem handleMessage_null_throws (now : Q) (st : Receiver) :
  handleMessage now st VNull = (st, [], Threw TypeError)
  ∧ handleMessage now st (VStr "null") = (st, [], Threw TypeError)
  ∧ handleMessage now st VUndef = (st, [], Threw TypeError).
Proof.
  repeat split; try reflexivity.
  unfold handleMessage. rewrite JSON_parse_null. reflexivity.
Qed.


(** *** The frame *)

Lemma render_fst (now : Q) (st : Receiver) :
  (render now st).1 = (dispatch (frame_view now st)).1.
Proof. unfold render. destruct (dispatch _). reflexivity. Qed.

Lemma render_snd (now : Q) (st : Receiver) :
  (render now st).2 = fade st ++ (dispatch (frame_view now st)).2.
Proof. unfold render. destruct (dispatch _). reflexivity. Qed.


Lemma frame_view_index (now : Q) (st : Receiver) :
  activeVizIndex (frame_view now st) = activeVizIndex st.
Proof.
  unfold frame_view, decay_if_stale. destruct (Qlt_bool _ _); reflexivity.
Qed.

Lemma frame_view_lastFeatureTime (now : Q) (st : Receiver) :
  lastFeatureTime (frame_view now st) = lastFeatureTime st.
Proof.
  unfold frame_view, decay_if_stale. destruct (Qlt_bool _ _); reflexivity.
Qed.

(** *** The dispatch *)

Lemma unknown_index_is_number (v : jsval) (k : Z) :
  unknown_index v → (0 <= k <= 3)%Z → is_number v k = false.
Proof.
  intros U K. destruct v as [| | |[| |q]| | |]; try reflexivity.
  simpl. apply Qeq_bool_false. intros E.
  apply (U q eq_refl).
  assert (C : k = 0%Z ∨ k = 1%Z ∨ k = 2%Z ∨ k = 3%Z) by lia.
  destruct C as [-> | [-> | [-> | ->]]]; tauto.
Qed.

Lemma unknown_index_number (q : Q) :
  ¬ (q == 0 ∨ q == 1 ∨ q == 2 ∨ q == 3) → unknown_index (VNum (Num q)).
Proof. intros N q' E. injection E as <-. exact N. Qed.

Lemma unknown_index_string (s : string) : unknown_index (VStr s).
Proof. intros q E. discriminate E. Qed.

Lemma dispatch_unknown (st : Receiver) :
  unknown_index (activeVizIndex st) → dispatch st = drawNebula st.
Proof.
  intros U. unfold dispatch.
  rewrite !(unknown_index_is_number _ _ U) by lia. reflexivity.
Qed.

Lemma dispatch_zero (st : Receiver) :
  dispatch (set_activeVizIndex (VNum 0) st)
  = drawNebula (set_activeVizIndex (VNum 0) st).
Proof. reflexivity. Qed.

(** The particle swarm reads and writes nothing of the active index. *)
Lemma drawNebula_index (i : jsval) (st : Receiver) :
  drawNebula (set_activeVizIndex i st)
  = (set_activeVizIndex i (drawNebula st).1, (drawNebula st).2).
Proof. reflexivity. Qed.

(** C3.  When the active index is none of 0, 1, 2, 3 (a number such as
    4, -1 or 99, or a value that is not a number), the dispatch runs
    [drawNebula], and the whole frame is the frame of index 0 on the
    same variables and clock: same drawing calls, same resulting
    variables (the index itself apart).  This holds in particular for
    the index left by a [vizIndex] message that carries such a value. *)
Theorem dispatch_fallback (now : Q) (st : Receiver)
    (t : Q) (st0 : Receiver) (data : jsval) (o : gmap string jsval) :
  (unknown_index (activeVizIndex st) →
     dispatch st = drawNebula st
     ∧ render now st
       = (set_activeVizIndex (activeVizIndex st)
            (render now (set_activeVizIndex (VNum 0) st)).1,
          (render now (set_activeVizIndex (VNum 0) st)).2))
  ∧ (decoded data (VObj o) →
     o !! "type" = Some (VStr "vizIndex") →
     unknown_index (prop (VObj o) "index") →
     dispatch (handleMessage t st0 data).1.1
     = drawNebula (handleMessage t st0 data).1.1).
Proof.
  split.
  - intros U. split; [exact (dispatch_unknown st U) |].
    assert (E : frame_view now (set_activeVizIndex (VNum 0) st)
                = set_activeVizIndex (VNum 0) (frame_view now st)).
    { unfold frame_view, decay_if_stale.
      cbn [lastFeatureTime set_time set_activeVizIndex].
      destruct (Qlt_bool 200 (now - lastFeatureTime st)); reflexivity. }
    assert (Ua : unknown_index (activeVizIndex (frame_view now st))).
    { rewrite frame_view_index. exact U. }
    apply injective_projections.
    + rewrite !render_fst, E, dispatch_zero, drawNebula_index.
      rewrite (dispatch_unknown _ Ua). cbn [fst].
      rewrite <- (frame_view_index now st).
      destruct (frame_view now st). reflexivity.
    + rewrite !render_snd, E, dispatch_zero, drawNebula_index.
      rewrite (dispatch_unknown _ Ua). reflexivity.
  - intros D T U.
    rewrite (handleMessage_decoded _ _ _ _ D).
    unfold route. cbn [nullish]. rewrite (prop_lookup _ _ _ T).
    change (is_string (VStr "vizIndex") "features") with false.
    change (is_string (VStr "vizIndex") "vizIndex") with true. cbv iota.
    cbn [fst]. unfold or_else.
    destruct (truthy (prop (VObj o) "index")).
    + apply dispatch_unknown. exact U.
    + reflexivity.
Qed.

(** *** Frames leave the feature state to the staleness rule *)

(** Name the two pairs [drawBassTunnel] takes apart. *)
Ltac tunnel_pairs :=
  unfold drawBassTunnel;
  destruct (tunnel_spawn _ _ _) as [spawned calls];
  destruct (ring_loop _ _ _ _ _ _) as [rings ops].

Lemma features_drawBassTunnel (st : Receiver) :
  features (drawBassTunnel st).1 = features st.
Proof.
  tunnel_pairs. reflexivity.
Qed.

Lemma lastFeatureTime_drawBassTunnel (st : Receiver) :
  lastFeatureTime (drawBassTunnel st).1 = lastFeatureTime st.
Proof.
  tunnel_pairs. reflexivity.
Qed.

Lemma features_dispatch (st : Receiver) :
  features (dispatch st).1 = features st.
Proof.
  unfold dispatch.
  repeat (destruct (is_number _ _)); try reflexivity.
  apply features_drawBassTunnel.
Qed.

Lemma lastFeatureTime_dispatch (st : Receiver) :
  lastFeatureTime (dispatch st).1 = lastFeatureTime st.
Proof.
  unfold dispatch.
  repeat (destruct (is_number _ _)); try reflexivity.
  apply lastFeatureTime_drawBassTunnel.
Qed.


Lemma lastFeatureTime_render (now : Q) (st : Receiver) :
  lastFeatureTime (render now st).1 = lastFeatureTime st.
Proof.
  rewrite render_fst, lastFeatureTime_dispatch.
  apply frame_view_lastFeatureTime.
Qed.

Lemma features_render_fresh (now : Q) (st : Receiver) :
  (now - lastFeatureTime st <= 200)%Q →
  features (render now st).1 = features st.
Proof.
  intros F. rewrite render_fst, features_dispatch.
  unfold frame_view, decay_if_stale. cbn [lastFeatureTime set_time].
  apply Qlt_bool_false in F. rewrite F. reflexivity.
Qed.

(** C10.  A [features] message whose [data] is absent, null or
    otherwise falsy leaves the feature state (and every other variable)
    as it was, except that the staleness timestamp becomes the arrival
    instant; so a frame up to 200 ms after it does not decay the feature
    state, however old the last update of a value is. *)
Theorem features_without_data (now : Q) (st : Receiver) (data : jsval)
    (o : gmap string jsval) :
  decoded data (VObj o) →
  o !! "type" = Some (VStr "features") →
  truthy (prop (VObj o) "data") = false →
  handleMessage now st data = (set_lastFeatureTime now st, [], Returned)
  ∧ features (handleMessage now st data).1.1 = features st
  ∧ activeVizIndex (handleMessage now st data).1.1 = activeVizIndex st
  ∧ lastFeatureTime (handleMessage now st data).1.1 = now
  ∧ ∀ later, (later - now <= 200)%Q →
      features (render later (handleMessage now st data).1.1).1 = features st.
Proof.
  intros D T F.
  assert (E : handleMessage now st data
              = (set_lastFeatureTime now st, [], Returned)).
  { rewrite (handleMessage_decoded _ _ _ _ D).
    unfold route. cbn [nullish]. rewrite (prop_lookup _ _ _ T).
    change (is_string (VStr "features") "features") with true. cbv iota.
    unfold updateFeatures. rewrite F. cbn [negb].
    rewrite set_features_same. reflexivity. }
  rewrite E. cbn [fst].
  split; [reflexivity |]. split; [reflexivity |].
  split; [reflexivity |]. split; [reflexivity |].
  intros later L. rewrite features_render_fresh; [reflexivity | exact L].
Qed.



Lemma huge_pos : 0 < huge.
Proof. reflexivity. Qed.









(** *** The ring loop *)

(** After the iterations for the indices [n - 1] down to [0], the first
    [n] rings have grown and the expired ones among them are gone; the
    rings from index [n] on are untouched. *)
Lemma ring_loop_rings (st : Receiver) (speed maxR : jsnum) (n : nat) :
  ∀ (rings : list Ring.t) (ops : list DrawOp),
    (n <= length rings)%nat →
    (ring_loop st speed maxR n rings ops).1
    = List.filter (kept maxR) (map (grow speed maxR) (take n rings))
      ++ drop n rings.
Proof.
  induction n as [| i IH]; intros rings ops L.
  - simpl. rewrite drop_0. reflexivity.
  - destruct (lookup_lt_is_Some_2 rings i) as [ring R]; [lia |].
    simpl ring_loop. rewrite R.
    rewrite (take_S_r _ _ _ R), map_app, List.filter_app. simpl.
    unfold kept at 2.
    destruct (expired maxR (grow speed maxR ring)) eqn:E; simpl.
    + rewrite IH by (rewrite length_delete; [lia | eauto]).
      rewrite delete_take_drop.
      rewrite take_app_length' by (rewrite length_take; lia).
      rewrite drop_app_length' by (rewrite length_take; lia).
      rewrite app_nil_r. reflexivity.
    + rewrite IH by (rewrite length_insert; lia).
      rewrite take_insert_ge by lia.
      rewrite drop_insert_ge by lia. rewrite Nat.sub_diag.
      rewrite (drop_S _ _ _ R). simpl. rewrite <- app_assoc. reflexivity.
Qed.

Lemma tunnelRings_drawBassTunnel (st : Receiver) :
  tunnelRings (drawBassTunnel st).1
  = List.filter (kept (tunnel_maxR st))
      (map (grow (tunnel_speed st) (tunnel_maxR st))
         (tunnel_spawn (features st) (tunnelRings st) (randomCalls st)).1).
Proof.
  unfold drawBassTunnel.
  destruct (tunnel_spawn _ _ _) as [spawned calls].
  pose proof (ring_loop_rings st (tunnel_speed st) (tunnel_maxR st)
                (length spawned) spawned [] (Nat.le_refl _)) as R.
  destruct (ring_loop _ _ _ _ _ _) as [rings ops].
  simpl in *. rewrite R, take_ge, drop_ge by lia.
  rewrite app_nil_r. reflexivity.
Qed.

Lemma tunnel_spawn_cases (f : FeatureState) (rings : list Ring.t) (calls : nat) :
  (tunnel_spawn f rings calls).1 = rings
  ∨ ((length rings < MAX_RINGS)%nat
     ∧ (tunnel_spawn f rings calls).1 = rings ++ [new_ring f (S calls)]).
Proof.
  unfold tunnel_spawn.
  destruct (_ || _); [| left; reflexivity].
  destruct (length rings <? MAX_RINGS)%nat eqn:E; [| left; reflexivity].
  right. apply Nat.ltb_lt in E. split; [exact E | reflexivity].
Qed.

Lemma tunnel_spawn_full (f : FeatureState) (rings : list Ring.t) (calls : nat) :
  (MAX_RINGS <= length rings)%nat → (tunnel_spawn f rings calls).1 = rings.
Proof.
  intros L. destruct (tunnel_spawn_cases f rings calls) as [E | [E _]];
    [exact E | lia].
Qed.

Lemma tunnel_spawn_length (f : FeatureState) (rings : list Ring.t) (calls : nat) :
  (length rings <= MAX_RINGS)%nat →
  (length (tunnel_spawn f rings calls).1 <= MAX_RINGS)%nat.
Proof.
  intros L. destruct (tunnel_spawn_cases f rings calls) as [-> | [E ->]];
    [exact L |].
  rewrite length_app. simpl. lia.
Qed.

Lemma filter_length_le {A : Type} (p : A → bool) (l : list A) :
  (length (List.filter p l) <= length l)%nat.
Proof.
  induction l as [| a l IH]; simpl; [lia |]. destruct (p a); simpl; lia.
Qed.

Lemma drawBassTunnel_length (st : Receiver) :
  (length (tunnelRings st) <= MAX_RINGS)%nat →
  (length (tunnelRings (drawBassTunnel st).1) <= MAX_RINGS)%nat.
Proof.
  intros L. rewrite tunnelRings_drawBassTunnel.
  etransitivity; [apply filter_length_le |].
  rewrite length_map. apply tunnel_spawn_length, L.
Qed.

(** *** What every event preserves *)

Lemma private_route (now : Q) (st : Receiver) (v : jsval) :
  tunnelRings (route now st v).1.1 = tunnelRings st
  ∧ time (route now st v).1.1 = time st.
Proof.
  unfold route.
  destruct (nullish v); [split; reflexivity |].
  destruct (is_string _ "features").
  { destruct (updateFeatures _ _) as [fs [| e]]; split; reflexivity. }
  destruct (is_string _ "vizIndex"); [split; reflexivity |].
  destruct (is_string _ "ping"); split; reflexivity.
Qed.

Lemma private_handleMessage (now : Q) (st : Receiver) (data : jsval) :
  tunnelRings (handleMessage now st data).1.1 = tunnelRings st
  ∧ time (handleMessage now st data).1.1 = time st.
Proof.
  unfold handleMessage.
  destruct data; try apply private_route.
  destruct (JSON_parse s); [apply private_route | split; reflexivity].
Qed.

Lemma time_dispatch (st : Receiver) : time (dispatch st).1 = time st.
Proof.
  unfold dispatch.
  repeat (destruct (is_number _ _)); try reflexivity.
  tunnel_pairs. reflexivity.
Qed.

Lemma tunnelRings_dispatch (st : Receiver) :
  tunnelRings (dispatch st).1 = tunnelRings st
  ∨ tunnelRings (dispatch st).1 = tunnelRings (drawBassTunnel st).1.
Proof.
  unfold dispatch.
  repeat (destruct (is_number _ _)); auto.
Qed.

Lemma tunnelRings_frame_view (now : Q) (st : Receiver) :
  tunnelRings (frame_view now st) = tunnelRings st.
Proof.
  unfold frame_view, decay_if_stale. destruct (Qlt_bool _ _); reflexivity.
Qed.

Lemma time_frame_view (now : Q) (st : Receiver) :
  time (frame_view now st) = (time st + 0.016)%Q.
Proof.
  unfold frame_view, decay_if_stale. destruct (Qlt_bool _ _); reflexivity.
Qed.

Lemma new_ring_waveOff (f : FeatureState) (calls : nat) :
  waveOff_in_unit (new_ring f calls).
Proof.
  exists (Math_random (S calls)). split; [reflexivity |].
  apply Math_random_range.
Qed.

Lemma grow_waveOff (speed maxR : jsnum) (ring : Ring.t) :
  waveOff_in_unit ring → waveOff_in_unit (grow speed maxR ring).
Proof. intros W. exact W. Qed.

Lemma drawBassTunnel_waveOff (st : Receiver) :
  Forall waveOff_in_unit (tunnelRings st) →
  Forall waveOff_in_unit (tunnelRings (drawBassTunnel st).1).
Proof.
  intros F. rewrite tunnelRings_drawBassTunnel.
  apply List.Forall_forall. intros ring' I.
  apply List.filter_In in I as [I _].
  apply List.in_map_iff in I as (ring & <- & I).
  apply grow_waveOff.
  destruct (tunnel_spawn_cases (features st) (tunnelRings st) (randomCalls st))
    as [E | [_ E]]; rewrite E in I.
  - revert ring I. apply List.Forall_forall. exact F.
  - apply List.in_app_iff in I as [I | [<- | []]].
    + revert ring I. apply List.Forall_forall. exact F.
    + apply new_ring_waveOff.
Qed.

Lemma steady_frame_view (now : Q) (st : Receiver) :
  steady st → steady (frame_view now st).
Proof.
  intros (L & F & T). unfold steady.
  rewrite tunnelRings_frame_view, time_frame_view.
  repeat split; [exact L | exact F | lra].
Qed.

Lemma steady_drawBassTunnel (st : Receiver) :
  steady st → steady (drawBassTunnel st).1.
Proof.
  intros (L & F & T). repeat split.
  - apply drawBassTunnel_length, L.
  - apply drawBassTunnel_waveOff, F.
  - tunnel_pairs. exact T.
Qed.

Lemma steady_dispatch (st : Receiver) : steady st → steady (dispatch st).1.
Proof.
  intros S. pose proof (steady_drawBassTunnel st S) as (L' & F' & _).
  destruct S as (L & F & T). unfold steady. rewrite time_dispatch.
  destruct (tunnelRings_dispatch st) as [-> | ->]; repeat split; assumption.
Qed.

Lemma steady_step (st : Receiver) (ev : Event) : steady st → steady (step st ev).
Proof.
  intros S. destruct ev as [data now | now | w h]; simpl.
  - destruct (private_handleMessage now st data) as [R T].
    unfold steady. rewrite R, T. exact S.
  - rewrite render_fst. apply steady_dispatch, (steady_frame_view now), S.
  - exact S.
Qed.

Lemma steady_loaded (w h : Z) : steady (loaded w h).
Proof.
  repeat split; simpl.
  - unfold MAX_RINGS. lia.
  - constructor.
  - lra.
Qed.

Lemma steady_run (evs : list Event) :
  ∀ st, steady st → steady (run st evs).
Proof.
  induction evs as [| ev evs IH]; intros st S; [exact S |].
  apply IH, steady_step, S.
Qed.

(** The scalar fields are defined at start-up and stay so: the
    assumption of [updateFeatures_fallback] on the state it starts from
    holds throughout a session. *)
Lemma no_nullish_decay (fs : FeatureState) : no_nullish fs → no_nullish (decay fs).
Proof. intros N k. specialize (N k). destruct k; try exact N; reflexivity. Qed.

Lemma no_nullish_updateFeatures (fs : FeatureState) (f : jsval) :
  no_nullish fs → no_nullish (updateFeatures fs f).1.
Proof.
  intros N k. destruct (truthy f) eqn:T.
  - rewrite scalar_of_updateFeatures by exact T.
    apply or_else_not_nullish. destruct k; reflexivity.
  - unfold updateFeatures. rewrite T. apply N.
Qed.

Lemma no_nullish_route (now : Q) (st : Receiver) (v : jsval) :
  no_nullish (features st) → no_nullish (features (route now st v).1.1).
Proof.
  intros N. unfold route.
  destruct (nullish v); [exact N |].
  destruct (is_string _ "features").
  { pose proof (no_nullish_updateFeatures (features st) (prop v "data") N) as U.
    destruct (updateFeatures _ _) as [fs [| e]]; exact U. }
  destruct (is_string _ "vizIndex"); [exact N |].
  destruct (is_string _ "ping"); exact N.
Qed.

Lemma no_nullish_step (st : Receiver) (ev : Event) :
  no_nullish (features st) → no_nullish (features (step st ev)).
Proof.
  intros N. destruct ev as [data now | now | w h]; simpl.
  - unfold handleMessage. destruct data; try apply no_nullish_route, N.
    destruct (JSON_parse s); [apply no_nullish_route, N | exact N].
  - rewrite render_fst, features_dispatch.
    unfold frame_view, decay_if_stale. cbn [lastFeatureTime set_time].
    destruct (Qlt_bool _ _); [apply no_nullish_decay |]; exact N.
  - exact N.
Qed.

Lemma no_nullish_run (w h : Z) (evs : list Event) :
  no_nullish (features (run (loaded w h) evs)).
Proof.
  assert (G : ∀ st, no_nullish (features st) → no_nullish (features (run st evs))).
  { induction evs as [| ev evs IH]; intros st N; [exact N |].
    apply IH, no_nullish_step, N. }
  apply G. intros k. destruct k; reflexivity.
Qed.

Create HintDb steady.
#[local] Hint Resolve steady_loaded steady_run steady_frame_view
  steady_drawBassTunnel : steady.

(** C5.  From start-up on, whatever messages, frames and resizes
    follow, the ring sequence never holds more than [MAX_RINGS] = 30
    rings; a spawn attempt on a full sequence pushes nothing, and a
    ring-tunnel frame on a sequence within the cap ends within it. *)
Theorem ring_capacity (w h : Z) (evs : list Event)
    (f : FeatureState) (rings : list Ring.t) (calls : nat) (st : Receiver) :
  (length (tunnelRings (run (loaded w h) evs)) <= MAX_RINGS)%nat
  ∧ MAX_RINGS = 30%nat
  ∧ ((MAX_RINGS <= length rings)%nat →
     (tunnel_spawn f rings calls).1 = rings)
  ∧ ((length (tunnelRings st) <= MAX_RINGS)%nat →
     (length (tunnelRings (drawBassTunnel st).1) <= MAX_RINGS)%nat).
Proof.
  assert (S : steady (run (loaded w h) evs)) by auto with steady.
  split; [exact (proj1 S) |].
  split; [reflexivity |].
  split; [apply tunnel_spawn_full | apply drawBassTunnel_length].
Qed.

(** *** Rings *)

Lemma grow_radius (s : Q) (maxR : jsnum) (ring : Ring.t) (q : Q) :
  Ring.radius ring = Num q →
  Ring.radius (grow (Num s) maxR ring) = Num (q + s * 0.016).
Proof. unfold grow. simpl. intros ->. reflexivity. Qed.

Lemma tunnelRings_other_visualizer (now : Q) (st : Receiver) :
  is_number (activeVizIndex st) 1 = false →
  tunnelRings (render now st).1 = tunnelRings st.
Proof.
  intros I. rewrite render_fst.
  rewrite <- (tunnelRings_frame_view now st).
  assert (J : is_number (activeVizIndex (frame_view now st)) 1 = false).
  { rewrite frame_view_index. exact I. }
  unfold dispatch. rewrite J.
  repeat (destruct (is_number _ _)); reflexivity.
Qed.

(** C6 (amended).  In a ring-tunnel frame whose expansion speed
    [80 + energyLow * 300] is a non-negative number (as it is for every
    [energyLow] in the nominal range 0..1), each ring's radius after the
    frame is at least its radius before; the rings of the sequence after
    the frame are exactly the grown rings that the test "radius above
    the maximum extent or alpha below 0.02" lets through, in their
    order, so a ring leaves the sequence in the first frame in which it
    meets that test.  Frames of the other visualizers leave the rings
    as they are. *)
Theorem ring_lifecycle (st : Receiver) (s : Q) :
  tunnel_speed st = Num s →
  0 <= s →
  let maxR := tunnel_maxR st in
  let spawned :=
    (tunnel_spawn (features st) (tunnelRings st) (randomCalls st)).1 in
  let after := tunnelRings (drawBassTunnel st).1 in
  after = List.filter (kept maxR) (map (grow (Num s) maxR) spawned)
  ∧ (∀ ring q, Ring.radius ring = Num q →
       ∃ q', Ring.radius (grow (Num s) maxR ring) = Num q' ∧ q <= q')
  ∧ (∀ ring, In ring spawned →
       (In (grow (Num s) maxR ring) after
        ↔ js_gt (Ring.radius (grow (Num s) maxR ring)) maxR = false
          ∧ js_lt (Ring.alpha (grow (Num s) maxR ring)) 0.02 = false))
  ∧ (∀ now st0, is_number (activeVizIndex st0) 1 = false →
       tunnelRings (render now st0).1 = tunnelRings st0).
Proof.
  intros S P maxR spawned after.
  assert (A : after = List.filter (kept maxR) (map (grow (Num s) maxR) spawned)).
  { subst after. rewrite tunnelRings_drawBassTunnel, S. reflexivity. }
  split; [exact A |]. split; [| split].
  - intros ring q R. exists (q + s * 0.016)%Q.
    split; [apply grow_radius, R | lra].
  - intros ring I. rewrite A, List.filter_In.
    unfold kept, expired. rewrite negb_true_iff, orb_false_iff.
    split; [tauto |]. intros K. split; [| exact K].
    apply List.in_map, I.
  - intros now st0. apply tunnelRings_other_visualizer.
Qed.

(** *** Particles *)

Lemma inject_Z_pos (z : Z) : (1 <= z)%Z → 1 <= inject_Z z.
Proof. intros L. change 1 with (inject_Z 1). rewrite <- Zle_Qle. exact L. Qed.

Lemma wrap_axis_cases (v : Q) (extent : Z) :
  (1 <= extent)%Z →
  (inject_Z extent < v →
     wrap_axis (Num v) (of_Z extent) = Num (v - inject_Z extent))
  ∧ (v < 0 → wrap_axis (Num v) (of_Z extent) = Num (v + inject_Z extent))
  ∧ (0 <= v ∧ v <= inject_Z extent → wrap_axis (Num v) (of_Z extent) = Num v).
Proof.
  intros E. apply inject_Z_pos in E.
  unfold wrap_axis, of_Z, js_gt. cbn [js_lt js_add js_sub].
  repeat split.
  - intros L.
    replace (Qlt_bool v 0) with false by (symmetry; apply Qlt_bool_false; lra).
    replace (Qlt_bool (inject_Z extent) v) with true
      by (symmetry; apply Qlt_bool_iff; lra).
    reflexivity.
  - intros L.
    replace (Qlt_bool v 0) with true by (symmetry; apply Qlt_bool_iff; lra).
    cbn [js_lt].
    replace (Qlt_bool (inject_Z extent) (v + inject_Z extent)) with false
      by (symmetry; apply Qlt_bool_false; lra).
    reflexivity.
  - intros [L U].
    replace (Qlt_bool v 0) with false by (symmetry; apply Qlt_bool_false; lra).
    replace (Qlt_bool (inject_Z extent) v) with false
      by (symmetry; apply Qlt_bool_false; lra).
    reflexivity.
Qed.

Lemma wrap_axis_on_surface (v : Q) (extent : Z) :
  (1 <= extent)%Z →
  - inject_Z extent <= v ∧ v <= 2 * inject_Z extent →
  ∃ v', wrap_axis (Num v) (of_Z extent) = Num v'
        ∧ 0 <= v' ∧ v' <= inject_Z extent.
Proof.
  intros E [L U]. destruct (wrap_axis_cases v extent E) as (A & B & C).
  destruct (Qlt_le_dec v 0) as [N | P].
  - exists (v + inject_Z extent). split; [apply B, N | lra].
  - destruct (Qlt_le_dec (inject_Z extent) v) as [O | I].
    + exists (v - inject_Z extent). split; [apply A, O | lra].
    + exists v. split; [apply C; split; assumption | lra].
Qed.

Lemma lookup_map {A B : Type} (f : A → B) (l : list A) (i : nat) (a : A) :
  l !! i = Some a → map f l !! i = Some (f a).
Proof.
  revert i. induction l as [| b l IH]; intros [| i] E;
    try discriminate; simpl in *.
  - injection E as ->. reflexivity.
  - apply IH, E.
Qed.

Lemma dispatch_swarm (st : Receiver) :
  swarm_active (activeVizIndex st) = true → dispatch st = drawNebula st.
Proof.
  unfold swarm_active, dispatch.
  destruct (is_number _ 0); [reflexivity |].
  destruct (is_number _ 1); [discriminate |].
  destruct (is_number _ 2); [discriminate |].
  destruct (is_number _ 3); [discriminate | reflexivity].
Qed.

Lemma frame_view_surface (now : Q) (st : Receiver) :
  width (frame_view now st) = width st
  ∧ height (frame_view now st) = height st
  ∧ nebulaParticles (frame_view now st) = nebulaParticles st.
Proof.
  unfold frame_view, decay_if_stale. destruct (Qlt_bool _ _); repeat split.
Qed.

(** C7 (amended).  On a surface of at least 1 x 1, in every frame that
    draws the swarm and none of whose discs has a negative radius, for
    every particle: a coordinate that the move
    takes beyond the width (height) by some overflow comes back at that
    overflow from the opposite edge 0; one that the move takes below 0
    comes back as far below the width (height) as it was below 0; a
    coordinate within the surface is left alone.  When the move leaves
    the surface by at most one full width (height), the particle is on
    the surface after the frame; the wrap takes off or adds the width
    (height) once only. *)
Theorem particle_wrap (st : Receiver) (now : Q) (i : nat) (p : Particle.t) :
  (1 <= width st)%Z →
  (1 <= height st)%Z →
  swarm_active (activeVizIndex st) = true →
  discs_drawable (frame_view now st) = true →
  nebulaParticles st !! i = Some p →
  let moved := nebula_move (frame_view now st) p in
  let W := inject_Z (width st) in
  let Ht := inject_Z (height st) in
  ∃ p', nebulaParticles (step st (Frame now)) !! i = Some p'
    ∧ (∀ xu, Particle.x moved = Num xu →
         (W < xu → Particle.x p' = Num (xu - W))
         ∧ (xu < 0 → Particle.x p' = Num (xu + W))
         ∧ (0 <= xu ∧ xu <= W → Particle.x p' = Num xu)
         ∧ (- W <= xu ∧ xu <= 2 * W →
            ∃ x', Particle.x p' = Num x' ∧ 0 <= x' ∧ x' <= W))
    ∧ (∀ yu, Particle.y moved = Num yu →
         (Ht < yu → Particle.y p' = Num (yu - Ht))
         ∧ (yu < 0 → Particle.y p' = Num (yu + Ht))
         ∧ (0 <= yu ∧ yu <= Ht → Particle.y p' = Num yu)
         ∧ (- Ht <= yu ∧ yu <= 2 * Ht →
            ∃ y', Particle.y p' = Num y' ∧ 0 <= y' ∧ y' <= Ht)).
Proof.
  intros Hw Hh A _ L moved W Ht.
  destruct (frame_view_surface now st) as (Ew & Eh & Ep).
  set (view := frame_view now st) in *.
  exists (nebula_step view p).1.
  split.
  - cbn [step]. rewrite render_fst. fold view.
    rewrite dispatch_swarm by (subst view; rewrite frame_view_index; exact A).
    unfold drawNebula. cbn [fst set_nebulaParticles nebulaParticles].
    rewrite Ep. apply lookup_map, lookup_map, L.
  - split.
    + intros xu E.
      assert (X : Particle.x (nebula_step view p).1
                  = wrap_axis (Num xu) (of_Z (width st))).
      { subst moved. unfold nebula_step, nebula_paint, nebula_wrap.
        cbn [fst Particle.x]. rewrite E, Ew. reflexivity. }
      rewrite X. destruct (wrap_axis_cases xu (width st) Hw) as (C1 & C2 & C3).
      split; [exact C1 |]. split; [exact C2 |]. split; [exact C3 |].
      apply wrap_axis_on_surface, Hw.
    + intros yu E.
      assert (Y : Particle.y (nebula_step view p).1
                  = wrap_axis (Num yu) (of_Z (height st))).
      { subst moved. unfold nebula_step, nebula_paint, nebula_wrap.
        cbn [fst Particle.y]. rewrite E, Eh. reflexivity. }
      rewrite Y. destruct (wrap_axis_cases yu (height st) Hh) as (C1 & C2 & C3).
      split; [exact C1 |]. split; [exact C2 |]. split; [exact C3 |].
      apply wrap_axis_on_surface, Hh.
Qed.

(** *** Sample indices *)

Lemma Qabs_nonneg_eq (v : Q) : 0 <= v → Qabs v = v.
Proof.
  destruct v as [n d]. unfold Qle. simpl. intros L.
  f_equal. apply Z.abs_eq. lia.
Qed.

Lemma inject_Z_nonneg (z : Z) : (0 <= z)%Z → 0 <= inject_Z z.
Proof. intros L. change 0 with (inject_Z 0). rewrite <- Zle_Qle. exact L. Qed.

Lemma js_div_Num (x y : Q) : 0 < y → js_div (Num x) (Num y) = Num (x / y).
Proof.
  intros P. simpl.
  replace (Qeq_bool y 0) with false; [reflexivity |].
  symmetry. apply Qeq_bool_false. lra.
Qed.

Lemma Qdiv_nonneg (x y : Q) : 0 <= x → 0 < y → 0 <= x / y.
Proof. intros X Y. apply Qle_shift_div_l; [exact Y | lra]. Qed.

(** The floor of a non-negative number, taken modulo a positive length,
    is a whole number from 0 to the length minus one, and its absolute
    value is itself. *)
Lemma floor_rem_in_bounds (a : Q) (len : nat) :
  0 <= a → (0 < len)%nat →
  in_bounds (js_rem (Math_floor (Num a)) (of_nat len)) len.
Proof.
  intros A L.
  set (m := Qfloor a). set (n := Z.of_nat len).
  assert (Hm : (0 <= m)%Z).
  { change 0%Z with (Qfloor 0). apply Qfloor_resp_le, A. }
  assert (Hn : (0 < n)%Z) by (subst n; lia).
  assert (Qn : 0 < inject_Z n).
  { change 0 with (inject_Z 0). rewrite <- Zlt_Qlt. exact Hn. }
  assert (Qm : 0 <= inject_Z m) by (apply inject_Z_nonneg, Hm).
  assert (T : Qtrunc (inject_Z m / inject_Z n) = (m / n)%Z).
  { unfold Qtrunc.
    replace (Qle_bool 0 (inject_Z m / inject_Z n)) with true.
    - symmetry. apply Zdiv_Qdiv.
    - symmetry. apply Qle_bool_iff, Qdiv_nonneg; assumption. }
  assert (V : inject_Z m - inject_Z n * inject_Z (m / n) == inject_Z (m mod n)).
  { rewrite Z.mod_eq by lia.
    unfold Z.sub. rewrite inject_Z_plus, inject_Z_opp, inject_Z_mult.
    reflexivity. }
  pose proof (Z.mod_pos_bound m n Hn) as B.
  exists (inject_Z m - inject_Z n * inject_Z (m / n))%Q, (m mod n)%Z.
  unfold Math_floor, of_nat, of_Z. fold m n. cbn [js_rem].
  replace (Qeq_bool (inject_Z n) 0) with false
    by (symmetry; apply Qeq_bool_false; lra).
  rewrite T. repeat split; try assumption; try lia.
  cbn [Math_abs]. f_equal. apply Qabs_nonneg_eq.
  rewrite V. apply inject_Z_nonneg. lia.
Qed.

Lemma ring_wIdx_in_bounds (p : nat) (q : Q) (len : nat) :
  0 <= q → (0 < len)%nat → in_bounds (ring_wIdx p (Num q) len) len.
Proof.
  intros Q0 L. unfold ring_wIdx.
  change (of_nat p) with (Num (inject_Z (Z.of_nat p))).
  rewrite js_div_Num by lra.
  change (of_nat len) with (Num (inject_Z (Z.of_nat len))).
  cbn [js_add js_mul].
  change (Num (inject_Z (Z.of_nat len))) with (of_nat len).
  apply floor_rem_in_bounds; [| exact L].
  pose proof (inject_Z_nonneg (Z.of_nat p) ltac:(lia)).
  pose proof (inject_Z_nonneg (Z.of_nat len) ltac:(lia)).
  pose proof (Qdiv_nonneg (inject_Z (Z.of_nat p)) 72 ltac:(assumption) ltac:(lra)).
  nra.
Qed.

Lemma ribbon_xs_nonneg (w x : Z) : In x (ribbon_xs w) → (0 <= x)%Z.
Proof.
  unfold ribbon_xs. intros I.
  apply List.in_map_iff in I as (k & <- & _). lia.
Qed.

Lemma ribbon_wIdx_in_bounds (x w : Z) (r : nat) (t : Q) (len : nat) :
  (0 <= x)%Z → (1 <= w)%Z → 0 <= t → (0 < len)%nat →
  in_bounds (ribbon_wIdx (js_div (of_Z x) (of_Z w)) r t len) len.
Proof.
  intros X W T L. unfold ribbon_wIdx, of_Z.
  pose proof (inject_Z_pos w W).
  rewrite js_div_Num by lra.
  change (of_nat r) with (Num (inject_Z (Z.of_nat r))).
  change (of_nat len) with (Num (inject_Z (Z.of_nat len))).
  cbn [js_add js_mul].
  change (Num (inject_Z (Z.of_nat len))) with (of_nat len).
  apply floor_rem_in_bounds; [| exact L].
  pose proof (inject_Z_nonneg x X).
  pose proof (inject_Z_nonneg (Z.of_nat r) ltac:(lia)).
  pose proof (inject_Z_nonneg (Z.of_nat len) ltac:(lia)).
  pose proof (Qdiv_nonneg (inject_Z x) (inject_Z w) ltac:(assumption) ltac:(lra)).
  nra.
Qed.

(** An index within bounds reads an element of the buffer. *)
Lemma element_in_bounds (a : list jsnum) (i : jsnum) :
  in_bounds i (length a) → ∃ v, element a (Math_abs i) = VNum v.
Proof.
  intros (q & k & -> & E & B & A). rewrite A. unfold element.
  assert (F : Qfloor q = k).
  { rewrite E. apply Qfloor_Z. }
  rewrite F.
  replace (Qeq_bool q (inject_Z k)) with true
    by (symmetry; apply Qeq_bool_iff, E).
  replace (Qle_bool 0 q) with true.
  2:{ symmetry. apply Qle_bool_iff. rewrite E. apply inject_Z_nonneg. lia. }
  cbn [andb].
  destruct (lookup_lt_is_Some_2 a (Z.to_nat k)) as [v V]; [lia |].
  rewrite V. exists v. reflexivity.
Qed.

(** C8 (amended).  At every frame of a session, if the waveform buffer is not
    empty: for every ring the ring tunnel draws and each of the 73 points
    of its outline, and, on a surface at least one pixel wide, for every
    ribbon and every abscissa the flow ribbons sample, the index computed
    by the floor and the modulo is a whole number from 0 to the buffer
    length minus one; the absolute value leaves it as it is, and the
    buffer access reads an element. *)
Theorem waveform_index_in_bounds (w h : Z) (evs : list Event) (now : Q) :
  let view := frame_view now (run (loaded w h) evs) in
  let buffer := waveform (features view) in
  (0 < length buffer)%nat →
  (∀ ring p,
     In ring (tunnelRings (drawBassTunnel view).1) → (p <= 72)%nat →
     in_bounds (ring_wIdx p (Ring.waveOff ring) (length buffer)) (length buffer)
     ∧ ∃ v, element buffer
              (Math_abs (ring_wIdx p (Ring.waveOff ring) (length buffer)))
            = VNum v)
  ∧ ((1 <= width view)%Z →
     ∀ r x, (r < 6)%nat → In x (ribbon_xs (width view)) →
     in_bounds
       (ribbon_wIdx (js_div (of_Z x) (of_Z (width view))) r (time view)
          (length buffer))
       (length buffer)
     ∧ ∃ v, element buffer
              (Math_abs
                 (ribbon_wIdx (js_div (of_Z x) (of_Z (width view))) r
                    (time view) (length buffer)))
            = VNum v).
Proof.
  intros view buffer L.
  assert (S : steady view) by (subst view; auto with steady).
  split.
  - intros ring p I _.
    pose proof (steady_drawBassTunnel view S) as (_ & F & _).
    pose proof (proj1 (List.Forall_forall _ _) F ring I) as (q & E & Q0 & _).
    rewrite E.
    pose proof (ring_wIdx_in_bounds p q (length buffer) Q0 L) as B.
    split; [exact B | apply element_in_bounds, B].
  - intros W r x _ I.
    destruct S as (_ & _ & T).
    pose proof (ribbon_wIdx_in_bounds x (width view) r (time view)
                  (length buffer) (ribbon_xs_nonneg _ _ I) W T L) as B.
    split; [exact B | apply element_in_bounds, B].
Qed.

End Properties.

(** ** The properties on concrete inputs *)

(** The parser of the small host does not know the text [not json]:
    the message is dropped. *)
Example unparseable_dropped :
  handleMessage 5 (loaded 1920 1080) (VStr "not json")
  = (loaded 1920 1080, [], Returned).
Proof. apply handleMessage_unparseable. reflexivity. Qed.

(** Scenario 1 of the specification: index 2, then an update with
    [energyLow], [amplitude] and [isBeat]; the next frame takes the
    flow-ribbons path with [energyLow] 0.8 and [brightness] 0.5. *)
Example scenario_ribbons :
  let st := run (loaded 1920 1080)
              [ Message (vizIndex_message (VNum 2)) 10;
                Message (features_message scenario_update) 20 ] in
  dispatch (frame_view 30 st) = drawRibbonFlow (frame_view 30 st)
  ∧ energyLow (features (frame_view 30 st)) = VNum 0.8
  ∧ brightness (features (frame_view 30 st)) = VNum 0.5.
Proof. vm_compute. repeat split. Qed.

(** A brightness of 0 is falsy, so the field takes the default 0.5. *)
Example brightness_zero :
  brightness
    (updateFeatures initial_features (VObj {[ "brightness" := VNum 0 ]})).1
  = VNum 0.5.
Proof. reflexivity. Qed.

(** A negative length makes the typed-array constructor of the small
    host throw, as the real one does; the scalar assignments made
    before stay. *)
Example waveform_throws :
  let f := VObj (<["energyLow" := VNum 0.8]> {[ "waveform" := VNum (-1) ]}) in
  (updateFeatures initial_features f).2 = Threw TypedArrayError
  ∧ energyLow (updateFeatures initial_features f).1 = VNum 0.8.
Proof. vm_compute. split; reflexivity. Qed.

(** Line 257 for the point 71 of a ring of phase offset 0.9 on a buffer
    of 128 samples: floor((71/72 + 0.9) * 128) = 241, and 241 % 128 is
    113. *)
Example ring_wIdx_113 :
  match ring_wIdx 71 (Num 0.9) 128 with
  | Num q => q == 113
  | _ => False
  end.
Proof. vm_compute. reflexivity. Qed.

(** Lines 184-185 on a surface 1920 wide. *)
Example wrap_axis_right :
  match wrap_axis (Num 1925) (of_Z 1920) with
  | Num q => q == 5
  | _ => False
  end.
Proof. vm_compute. reflexivity. Qed.

Example wrap_axis_left :
  match wrap_axis (Num (-3)) (of_Z 1920) with
  | Num q => q == 1917
  | _ => False
  end.
Proof. vm_compute. reflexivity. Qed.

(** C7, counterexample.  The window shrinks from 1920 x 1080 to
    800 x 600.  Particle 7 started at x = 1728; the next frame, which
    draws the swarm with discs of positive radius, moves it by less
    than two pixels, the wrap takes the width 800 off once, and the
    particle is left beyond the right edge, off the surface it is said
    to have re-entered. *)
Lemma wrapped_particle_off_surface :
  let st := run (loaded 1920 1080) [Resized 800 600] in
  swarm_active (activeVizIndex st) = true
  ∧ discs_drawable (frame_view 16 st) = true
  ∧ match nebulaParticles st !! 7%nat,
        nebulaParticles (step st (Frame 16)) !! 7%nat with
  | Some p, Some p' =>
      match Particle.x p,
            Particle.x (nebula_move (frame_view 16 st) p),
            Particle.x p' with
      | Num x, Num xu, Num x' =>
          x == 1728 ∧ 800 < xu ∧ x' == xu - 800 ∧ 800 < x'
      | _, _, _ => False
      end
  | _, _ => False
  end.
Proof. vm_compute. repeat split; reflexivity. Qed.

(** C8, counterexample.  The flow ribbons are selected and the window
    is resized to a width of 0.  The ribbons still sample at x = 0,
    where t = 0 / 0 is NaN: the index is NaN, the buffer of 128 samples
    reads [undefined] there, and the frame puts the first point of the
    ribbon at the ordinate NaN. *)
Lemma ribbon_index_not_a_number :
  let st := run (loaded 1920 1080)
              [ Message (vizIndex_message (VNum 2)) 10; Resized 0 1080 ] in
  let view := frame_view 16 st in
  let buffer := waveform (features view) in
  let wIdx := ribbon_wIdx (js_div (of_Z 0) (of_Z (width view))) 0
                (time view) (length buffer) in
  (0 < length buffer)%nat
  ∧ In 0%Z (ribbon_xs (width view))
  ∧ wIdx = NaN
  ∧ ¬ in_bounds wIdx (length buffer)
  ∧ element buffer (Math_abs wIdx) = VUndef
  ∧ ribbon_point view 0 0 = ctx_moveTo (Num 0) NaN
  ∧ In (ribbon_point view 0 0) (render 16 st).2.
Proof.
  intros st view buffer wIdx.
  assert (N : wIdx = NaN) by (vm_compute; reflexivity).
  split; [vm_compute; lia |].
  split; [vm_compute; left; reflexivity |].
  split; [exact N |].
  split; [rewrite N; intros (q & k & E & _); discriminate |].
  split; [rewrite N; reflexivity |].
  split; [vm_compute; reflexivity |].
  vm_compute. do 3 right. left. reflexivity.
Qed.

(** C1, counterexample.  The update [{energyLow: "loud"}] carries a
    value that is no number; the field takes neither its default nor
    its last value, it takes the string. *)
Lemma updateFeatures_keeps_invalid :
  let f := VObj {[ "energyLow" := VStr "loud" ]} in
  let fs' := (updateFeatures initial_features f).1 in
  well_typed SenergyLow (prop f (scalar_name SenergyLow)) = false
  ∧ scalar_of SenergyLow fs' = VStr "loud"
  ∧ scalar_of SenergyLow fs' ≠ scalar_default SenergyLow
  ∧ scalar_of SenergyLow fs' ≠ scalar_of SenergyLow initial_features.
Proof. vm_compute. repeat split; discriminate. Qed.

Lemma updateFeatures_fallback_witness :
  let fs' := (updateFeatures initial_features scenario_update).1 in
  brightness fs' = VNum 0.5
  ∧ tempoBpm fs' = VNum 120
  ∧ energyLow fs' = VNum 0.8
  ∧ no_nullish fs'
  ∧ waveform fs' = waveform initial_features.
Proof.
  intros fs'.
  destruct (updateFeatures_fallback initial_features scenario_update)
    as (_ & S & N & W & _).
  split; [apply (S eq_refl Sbrightness); reflexivity |].
  split; [apply (S eq_refl StempoBpm); reflexivity |].
  split; [apply (S eq_refl SenergyLow); reflexivity |].
  split; [apply N; intros k; destruct k; reflexivity |].
  apply W; reflexivity.
Defined.



Lemma dispatch_fallback_witness :
  Forall
    (λ index,
       let st := set_activeVizIndex index (loaded 1920 1080) in
       let st' := (handleMessage 0 (loaded 1920 1080)
                     (vizIndex_message index)).1.1 in
       dispatch st = drawNebula st ∧ dispatch st' = drawNebula st')
    [VNum 4; VNum (-1); VNum 99; VStr "plasma"].
Proof.
  assert (G : ∀ index, unknown_index index →
              let st := set_activeVizIndex index (loaded 1920 1080) in
              let st' := (handleMessage 0 (loaded 1920 1080)
                            (vizIndex_message index)).1.1 in
              dispatch st = drawNebula st ∧ dispatch st' = drawNebula st').
  { intros index U st st'.
    destruct (dispatch_fallback 0 st 0 (loaded 1920 1080)
                (vizIndex_message index)
                (<["type" := VStr "vizIndex"]> {[ "index" := index ]}))
      as [A B].
    split; [apply A, U | apply B; [reflexivity | reflexivity | exact U]]. }
  apply List.Forall_cons;
    [apply G, unknown_index_number; unfold Qeq; simpl; lia |].
  apply List.Forall_cons;
    [apply G, unknown_index_number; unfold Qeq; simpl; lia |].
  apply List.Forall_cons;
    [apply G, unknown_index_number; unfold Qeq; simpl; lia |].
  apply List.Forall_cons; [apply G, unknown_index_string |].
  apply List.Forall_nil.
Defined.

Lemma ring_capacity_witness :
  let full := replicate 30 (new_ring initial_features 0) in
  (tunnel_spawn initial_features full 0).1 = full
  ∧ (length (tunnelRings (drawBassTunnel (loaded 1920 1080)).1) <= MAX_RINGS)%nat.
Proof.
  intros full.
  destruct (ring_capacity 1920 1080 [] initial_features full 0 (loaded 1920 1080))
    as (_ & _ & A & B).
  split; [apply A | apply B]; vm_compute; lia.
Defined.

(** C6, counterexample.  With the index at 1, the update
    [{energyLow: -0.5, isBeat: true}] makes the speed 80 - 150 = -70
    (the radius of the centre gradient, 40 - 30, stays positive): the
    ring the first frame leaves in the sequence, of radius 6.88, is
    still there after the second, grown by that speed, with the smaller
    radius 5.76. *)
Lemma ring_radius_shrinks :
  let st1 := run (loaded 1920 1080)
               [ Message (vizIndex_message (VNum 1)) 10;
                 Message (features_message negative_energy) 20;
                 Frame 30 ] in
  let st2 := step st1 (Frame 40) in
  match tunnelRings st1, tunnelRings st2 with
  | [r1], [r2; _] =>
      r2 = grow (tunnel_speed (frame_view 40 st1))
                (tunnel_maxR (frame_view 40 st1)) r1
      ∧ js_lt (Ring.radius r2) (Ring.radius r1) = true
      ∧ js_lt (Num 0)
          (js_add (Num 40)
             (js_mul (ToNumber (energyLow (features st1))) (Num 60))) = true
  | _, _ => False
  end.
Proof. vm_compute. repeat split; reflexivity. Qed.

Lemma ring_lifecycle_witness :
  let st := (handleMessage 0 (loaded 1920 1080)
               (features_message scenario_update)).1.1 in
  let s := (80 + 0.8 * 300)%Q in
  tunnelRings (drawBassTunnel st).1
  = List.filter (kept (tunnel_maxR st))
      (map (grow (Num s) (tunnel_maxR st))
         (tunnel_spawn (features st) (tunnelRings st) (randomCalls st)).1).
Proof.
  intros st s.
  assert (S : tunnel_speed st = Num s) by (vm_compute; reflexivity).
  assert (P : (0 <= s)%Q) by (vm_compute; discriminate).
  destruct (ring_lifecycle st s S P) as (A & _).
  exact A.
Defined.

Lemma particle_wrap_witness :
  let p := {| Particle.x := 99; Particle.y := 50;
              Particle.vx := 10; Particle.vy := 0;
              Particle.size := 2; Particle.hue := 0; Particle.life := 0 |} in
  let st := set_nebulaParticles [p] (loaded 100 100) in
  ∃ xu p',
    Particle.x (nebula_move (frame_view 16 st) p) = Num xu
    ∧ (100 < xu)%Q
    ∧ nebulaParticles (step st (Frame 16)) !! 0%nat = Some p'
    ∧ Particle.x p' = Num (xu - inject_Z 100).
Proof.
  intros p st.
  destruct (particle_wrap st 16 0 p ltac:(vm_compute; discriminate)
              ltac:(vm_compute; discriminate) ltac:(reflexivity)
              ltac:(reflexivity) ltac:(reflexivity)) as (p' & L & X & _).
  eexists. exists p'. split; [vm_compute; reflexivity |].
  split; [vm_compute; reflexivity |].
  split; [exact L |].
  match goal with
  | |- _ = Num (?v - _)%Q =>
      destruct (X v) as [A _];
        [vm_compute; reflexivity | apply A; vm_compute; reflexivity]
  end.
Defined.

Lemma waveform_index_in_bounds_witness :
  let view := frame_view 0 (run (loaded 1920 1080) []) in
  in_bounds
    (ribbon_wIdx (js_div (of_Z 8) (of_Z (width view))) 2 (time view) 128) 128.
Proof.
  intros view.
  destruct (waveform_index_in_bounds 1920 1080 [] 0
              ltac:(vm_compute; lia)) as [_ B].
  apply (B ltac:(vm_compute; discriminate) 2%nat 8%Z ltac:(lia)).
  vm_compute. right. right. left. reflexivity.
Defined.


Lemma features_without_data_witness :
  let data := VObj {[ "type" := VStr "features" ]} in
  let st' := (handleMessage 7 (loaded 1920 1080) data).1.1 in
  features st' = features (loaded 1920 1080) ∧ lastFeatureTime st' = 7.
Proof.
  intros data st'.
  destruct (features_without_data 7 (loaded 1920 1080) data
              {[ "type" := VStr "features" ]}
              ltac:(reflexivity) ltac:(reflexivity) ltac:(reflexivity))
    as (_ & A & _ & B & _).
  split; [exact A | exact B].
Defined.

(** ** Further properties of the receiver *)

Section Further.
Context `{Host}.

(** *** The clock *)

Lemma time_step (st : Receiver) (ev : Event) :
  time (step st ev)
  = if is_frame ev then (time st + 0.016)%Q else time st.
Proof.
  destruct ev as [data now | now | w h]; simpl.
  - apply private_handleMessage.
  - rewrite render_fst, time_dispatch. apply time_frame_view.
  - reflexivity.
Qed.

Lemma time_run (evs : list Event) :
  ∀ st, time (run st evs)
        == time st
           + 0.016 * inject_Z (Z.of_nat (length (List.filter is_frame evs))).
Proof.
  induction evs as [| ev evs IH]; intros st.
  - change (time st == time st + 0.016 * 0). lra.
  - change (run st (ev :: evs)) with (run (step st ev) evs).
    rewrite IH, time_step. simpl List.filter.
    destruct (is_frame ev); [| reflexivity].
    cbn [length]. rewrite Nat2Z.inj_succ. unfold Z.succ.
    rewrite inject_Z_plus. change (inject_Z 1) with 1. lra.
Qed.

Lemma run_app (st : Receiver) (evs1 evs2 : list Event) :
  run st (evs1 ++ evs2) = run (run st evs1) evs2.
Proof. apply fold_left_app. Qed.

Lemma time_idle (evs : list Event) :
  Forall (λ ev, is_frame ev = false) evs →
  ∀ st, time (run st evs) = time st.
Proof.
  induction 1 as [| ev evs N _ IH]; intros st; [reflexivity |].
  change (run st (ev :: evs)) with (run (step st ev) evs).
  rewrite IH, time_step, N. reflexivity.
Qed.

Lemma frames_counted (evs : list Event) :
  Exists (λ ev, is_frame ev = true) evs →
  (1 <= Z.of_nat (length (List.filter is_frame evs)))%Z.
Proof.
  induction 1 as [ev evs F | ev evs _ IH]; simpl.
  - rewrite F. cbn [length]. lia.
  - destruct (is_frame ev); cbn [length]; lia.
Qed.

(** X1.  The render clock never runs backwards and only frames move
    it.  From start-up it is 0 until the first frame and positive ever
    after; whatever events follow, it is never less than it was, and it
    is exactly what it was when no frame is among them: messages and
    resizes never move it and nothing resets it. *)
Theorem clock_never_rewinds (w h : Z) (evs1 evs2 : list Event) :
  let t1 := time (run (loaded w h) evs1) in
  let t2 := time (run (loaded w h) (evs1 ++ evs2)) in
  0 <= t1
  ∧ t1 <= t2
  ∧ (Forall (λ ev, is_frame ev = false) evs1 → t1 = 0)
  ∧ (Exists (λ ev, is_frame ev = true) evs1 → 0 < t1)
  ∧ (Forall (λ ev, is_frame ev = false) evs2 → t2 = t1).
Proof.
  intros t1 t2.
  assert (P : ∀ l : list Event,
            0 <= inject_Z (Z.of_nat (length (List.filter is_frame l)))).
  { intros l. change 0 with (inject_Z 0). rewrite <- Zle_Qle. lia. }
  pose proof (time_run evs1 (loaded w h)) as T1.
  change (time (loaded w h)) with 0 in T1. fold t1 in T1.
  pose proof (time_run evs2 (run (loaded w h) evs1)) as T2.
  rewrite <- run_app in T2. fold t1 t2 in T2.
  pose proof (P evs1). pose proof (P evs2).
  split; [lra |]. split; [lra |].
  split; [| split].
  - intros I. subst t1. rewrite time_idle by exact I. reflexivity.
  - intros F. apply frames_counted in F.
    assert (1 <= inject_Z (Z.of_nat (length (List.filter is_frame evs1))))
      by (change 1 with (inject_Z 1); rewrite <- Zle_Qle; exact F).
    lra.
  - intros I. subst t1 t2. rewrite run_app. apply time_idle, I.
Qed.

(** *** Feature updates compose *)

(** X2.  Applying the same update twice is applying it once: same
    feature state, same outcome. *)
Theorem updateFeatures_idempotent (fs : FeatureState) (f : jsval) :
  updateFeatures (updateFeatures fs f).1 f = updateFeatures fs f.
Proof.
  unfold updateFeatures.
  destruct (truthy f); cbn [negb]; [| reflexivity].
  unfold assign_waveform, assign_fftMagnitudes.
  destruct (truthy (prop f "waveform"));
    [destruct (Float32Array_from (prop f "waveform")) as [w |] |];
    (destruct (truthy (prop f "fftMagnitudes"));
     [destruct (Float32Array_from (prop f "fftMagnitudes")) as [m |] |]);
    reflexivity.
Qed.

(** X3.  Scalars are never merged across updates: after a truthy
    update the twelve scalar fields are what that update alone gives,
    whatever the updates before it were; a field the last update omits
    is back at its default. *)
Theorem updateFeatures_last_wins (fs : FeatureState) (f1 f2 : jsval) (k : Scalar) :
  truthy f2 = true →
  scalar_of k (updateFeatures (updateFeatures fs f1).1 f2).1
  = scalar_of k (updateFeatures initial_features f2).1
  ∧ (prop f2 (scalar_name k) = VUndef →
     scalar_of k (updateFeatures (updateFeatures fs f1).1 f2).1
     = scalar_default k).
Proof.
  intros T. rewrite !scalar_of_updateFeatures by exact T.
  split; [reflexivity |]. intros ->. reflexivity.
Qed.

(** *** What a message leaves alone *)

Lemma route_private (now : Q) (st : Receiver) (v : jsval) :
  let st' := (route now st v).1.1 in
  width st' = width st ∧ height st' = height st ∧ time st' = time st
  ∧ nebulaParticles st' = nebulaParticles st
  ∧ tunnelRings st' = tunnelRings st
  ∧ randomCalls st' = randomCalls st.
Proof.
  unfold route.
  destruct (nullish v); [repeat split |].
  destruct (is_string _ "features").
  { destruct (updateFeatures _ _) as [fs [| e]]; repeat split. }
  destruct (is_string _ "vizIndex"); [repeat split |].
  destruct (is_string _ "ping"); repeat split.
Qed.

(** X4.  No message, whatever it carries and whether its handling
    returns or throws, touches the surface size, the render clock, the
    particles, the rings or the random source. *)
Theorem handleMessage_private (now : Q) (st : Receiver) (data : jsval) :
  let st' := (handleMessage now st data).1.1 in
  width st' = width st ∧ height st' = height st ∧ time st' = time st
  ∧ nebulaParticles st' = nebulaParticles st
  ∧ tunnelRings st' = tunnelRings st
  ∧ randomCalls st' = randomCalls st.
Proof.
  unfold handleMessage.
  destruct data; try apply route_private.
  destruct (JSON_parse s); [apply route_private | repeat split].
Qed.

Lemma is_string_eq (v : jsval) (s : string) :
  is_string v s = true → v = VStr s.
Proof.
  destruct v; simpl; try discriminate.
  intros E. apply String.eqb_eq in E. congruence.
Qed.

Lemma handleMessage_cases (now : Q) (st : Receiver) (data : jsval) :
  (∃ s, data = VStr s ∧ JSON_parse s = None
        ∧ handleMessage now st data = (st, [], Returned))
  ∨ (∃ v, decoded data v ∧ handleMessage now st data = route now st v).
Proof.
  destruct data as [| | b | n | s | items | o];
    try (right; eexists; split; [reflexivity | reflexivity]).
  unfold handleMessage, decoded.
  destruct (JSON_parse s) as [v |] eqn:E.
  - right. exists v. split; [reflexivity | reflexivity].
  - left. exists s. repeat split. exact E.
Qed.

(** X5.  A [vizIndex] message whose index is the number 0, 1, 2 or 3
    makes the next dispatch run that visualizer (particle swarm, ring
    tunnel, flow ribbons, pulse grid); it returns normally and leaves
    the feature state and the staleness timestamp as they were. *)
Theorem vizIndex_selects (now : Q) (st : Receiver) (data : jsval)
    (o : gmap string jsval) (q : Q) (k : Z) :
  decoded data (VObj o) →
  o !! "type" = Some (VStr "vizIndex") →
  o !! "index" = Some (VNum (Num q)) →
  q == inject_Z k →
  (0 <= k <= 3)%Z →
  dispatch (handleMessage now st data).1.1
  = visualizer k (handleMessage now st data).1.1
  ∧ features (handleMessage now st data).1.1 = features st
  ∧ lastFeatureTime (handleMessage now st data).1.1 = lastFeatureTime st
  ∧ (handleMessage now st data).2 = Returned.
Proof.
  intros D T I E K.
  rewrite (handleMessage_decoded _ _ _ _ D).
  unfold route. cbn [nullish].
  rewrite (prop_lookup _ _ _ T), (prop_lookup _ _ _ I).
  change (is_string (VStr "vizIndex") "features") with false.
  change (is_string (VStr "vizIndex") "vizIndex") with true. cbv iota.
  cbn [fst snd]. split; [| repeat split].
  unfold or_else, truthy, dispatch.
  assert (C : k = 0%Z ∨ k = 1%Z ∨ k = 2%Z ∨ k = 3%Z) by lia.
  destruct C as [-> | [-> | [-> | ->]]].
  - replace (Qeq_bool q 0) with true
      by (symmetry; apply Qeq_bool_iff; exact E).
    reflexivity.
  - replace (Qeq_bool q 0) with false
      by (symmetry; apply Qeq_bool_false; rewrite E; discriminate).
    cbn [negb activeVizIndex set_activeVizIndex is_number].
    replace (Qeq_bool q (inject_Z 0)) with false
      by (symmetry; apply Qeq_bool_false; rewrite E; discriminate).
    replace (Qeq_bool q (inject_Z 1)) with true
      by (symmetry; apply Qeq_bool_iff; exact E).
    reflexivity.
  - replace (Qeq_bool q 0) with false
      by (symmetry; apply Qeq_bool_false; rewrite E; discriminate).
    cbn [negb activeVizIndex set_activeVizIndex is_number].
    replace (Qeq_bool q (inject_Z 0)) with false
      by (symmetry; apply Qeq_bool_false; rewrite E; discriminate).
    replace (Qeq_bool q (inject_Z 1)) with false
      by (symmetry; apply Qeq_bool_false; rewrite E; discriminate).
    replace (Qeq_bool q (inject_Z 2)) with true
      by (symmetry; apply Qeq_bool_iff; exact E).
    reflexivity.
  - replace (Qeq_bool q 0) with false
      by (symmetry; apply Qeq_bool_false; rewrite E; discriminate).
    cbn [negb activeVizIndex set_activeVizIndex is_number].
    replace (Qeq_bool q (inject_Z 0)) with false
      by (symmetry; apply Qeq_bool_false; rewrite E; discriminate).
    replace (Qeq_bool q (inject_Z 1)) with false
      by (symmetry; apply Qeq_bool_false; rewrite E; discriminate).
    replace (Qeq_bool q (inject_Z 2)) with false
      by (symmetry; apply Qeq_bool_false; rewrite E; discriminate).
    replace (Qeq_bool q (inject_Z 3)) with true
      by (symmetry; apply Qeq_bool_iff; exact E).
    reflexivity.
Qed.

(** X6.  A [features] message and a [vizIndex] message commute: in
    either order of arrival the variables end up the same. *)
Theorem features_vizIndex_commute (t1 t2 : Q) (st : Receiver)
    (d1 d2 : jsval) (o1 o2 : gmap string jsval) :
  decoded d1 (VObj o1) →
  o1 !! "type" = Some (VStr "features") →
  decoded d2 (VObj o2) →
  o2 !! "type" = Some (VStr "vizIndex") →
  (handleMessage t2 (handleMessage t1 st d1).1.1 d2).1.1
  = (handleMessage t1 (handleMessage t2 st d2).1.1 d1).1.1.
Proof.
  intros D1 T1 D2 T2.
  rewrite !(handleMessage_decoded _ _ _ _ D1), !(handleMessage_decoded _ _ _ _ D2).
  unfold route. cbn [nullish].
  rewrite !(prop_lookup _ _ _ T1), !(prop_lookup _ _ _ T2).
  change (is_string (VStr "features") "features") with true.
  change (is_string (VStr "vizIndex") "features") with false.
  change (is_string (VStr "vizIndex") "vizIndex") with true. cbv iota.
  cbn [fst features set_activeVizIndex].
  destruct (updateFeatures (features st) (prop (VObj o1) "data")) as [fs [| e]];
    reflexivity.
Qed.

(** *** Messages that are dropped, messages that throw *)

Lemma not_known_type (t : jsval) :
  ¬ known_type t →
  is_string t "features" = false ∧ is_string t "vizIndex" = false
  ∧ is_string t "ping" = false.
Proof.
  intros N. unfold known_type in N.
  repeat split; apply not_true_is_false; intros E;
    apply is_string_eq in E; tauto.
Qed.

(** X7.  A string that does not parse, and any payload that is not
    null or undefined and whose [type] is none of ["features"],
    ["vizIndex"], ["ping"] (a number, a boolean, an array, an object
    without type), is dropped: no variable changes, nothing is sent or
    logged, nothing is thrown. *)
Theorem message_dropped (now : Q) (st : Receiver) (data : jsval) :
  (∃ s, data = VStr s ∧ JSON_parse s = None)
  ∨ (∃ v, decoded data v ∧ nullish v = false ∧ ¬ known_type (prop v "type")) →
  handleMessage now st data = (st, [], Returned).
Proof.
  intros [(s & -> & E) | (v & D & N & K)].
  - unfold handleMessage. rewrite E. reflexivity.
  - rewrite (handleMessage_decoded _ _ _ _ D).
    destruct (not_known_type _ K) as (A & B & C).
    unfold route. rewrite N, A, B, C. reflexivity.
Qed.

Lemma updateFeatures_throws (fs : FeatureState) (f : jsval) (e : exn) :
  (updateFeatures fs f).2 = Threw e →
  e = TypedArrayError
  ∧ ∃ name, (name = "waveform" ∨ name = "fftMagnitudes")
            ∧ truthy (prop f name) = true
            ∧ Float32Array_from (prop f name) = None.
Proof.
  unfold updateFeatures.
  destruct (truthy f); cbn [negb]; [| discriminate].
  unfold assign_waveform, assign_fftMagnitudes.
  destruct (truthy (prop f "waveform")) eqn:W;
    [destruct (Float32Array_from (prop f "waveform")) as [w |] eqn:Cw |];
    (destruct (truthy (prop f "fftMagnitudes")) eqn:M;
     [destruct (Float32Array_from (prop f "fftMagnitudes")) as [m |] eqn:Cm |]);
    cbn [snd]; intros E; try discriminate E;
    (split; [congruence |]).
  all: first
    [ exists "fftMagnitudes"; split; [right; reflexivity | split; assumption]
    | exists "waveform"; split; [left; reflexivity | split; assumption] ].
Qed.

(** X8.  The handling of a message throws in two cases only: the
    payload (parsed when it is a string) is null or undefined, which is
    a TypeError; or it is a [features] message whose [waveform] or
    [fftMagnitudes] is a truthy value the typed-array constructor
    rejects.  [vizIndex] and [ping] messages, and [features] messages
    without such a value, never throw. *)
Theorem handleMessage_throws_only (now : Q) (st : Receiver) (data : jsval)
    (e : exn) :
  (handleMessage now st data).2 = Threw e →
  ∃ v, decoded data v
       ∧ ((nullish v = true ∧ e = TypeError)
          ∨ (prop v "type" = VStr "features"
             ∧ e = TypedArrayError
             ∧ ∃ name, (name = "waveform" ∨ name = "fftMagnitudes")
                       ∧ truthy (prop (prop v "data") name) = true
                       ∧ Float32Array_from (prop (prop v "data") name) = None)).
Proof.
  destruct (handleMessage_cases now st data) as [(s & _ & _ & ->) | (v & D & ->)];
    [discriminate |].
  intros E. exists v. split; [exact D |].
  unfold route in E.
  destruct (nullish v) eqn:N.
  { left. split; [reflexivity | cbn in E; congruence]. }
  destruct (is_string (prop v "type") "features") eqn:F.
  { right. split; [apply is_string_eq, F |].
    pose proof (updateFeatures_throws (features st) (prop v "data")) as U.
    destruct (updateFeatures _ _) as [fs [| e']]; cbn in E; [discriminate |].
    injection E as <-. apply U. reflexivity. }
  destruct (is_string _ "vizIndex"); [discriminate |].
  destruct (is_string _ "ping"); discriminate.
Qed.

(** X9.  When the typed-array constructor rejects the [waveform] of a
    [features] message, the exception leaves [handleMessage] after the
    twelve scalar fields have been assigned: the scalars are the new
    ones, both buffers are the old ones, and the staleness timestamp is
    not reset. *)
Theorem features_constructor_throws (now : Q) (st : Receiver) (data d : jsval)
    (o : gmap string jsval) :
  decoded data (VObj o) →
  o !! "type" = Some (VStr "features") →
  o !! "data" = Some d →
  truthy d = true →
  truthy (prop d "waveform") = true →
  Float32Array_from (prop d "waveform") = None →
  handleMessage now st data
  = (set_features (assign_scalars (features st) d) st, [], Threw TypedArrayError)
  ∧ lastFeatureTime (handleMessage now st data).1.1 = lastFeatureTime st
  ∧ waveform (features (handleMessage now st data).1.1) = waveform (features st)
  ∧ fftMagnitudes (features (handleMessage now st data).1.1)
    = fftMagnitudes (features st).
Proof.
  intros D T I Td W C.
  assert (E : handleMessage now st data
              = (set_features (assign_scalars (features st) d) st, [],
                 Threw TypedArrayError)).
  { rewrite (handleMessage_decoded _ _ _ _ D).
    unfold route. cbn [nullish].
    rewrite (prop_lookup _ _ _ T), (prop_lookup _ _ _ I).
    change (is_string (VStr "features") "features") with true. cbv iota.
    rewrite (updateFeatures_truthy _ _ Td).
    unfold assign_waveform. rewrite W, C. reflexivity. }
  rewrite E. repeat split.
Qed.

Lemma route_timestamp (now : Q) (st : Receiver) (v : jsval) :
  lastFeatureTime (route now st v).1.1 = lastFeatureTime st
  ∨ (prop v "type" = VStr "features"
     ∧ (route now st v).2 = Returned
     ∧ lastFeatureTime (route now st v).1.1 = now).
Proof.
  unfold route.
  destruct (nullish v); [left; reflexivity |].
  destruct (is_string (prop v "type") "features") eqn:F.
  { apply is_string_eq in F.
    destruct (updateFeatures _ _) as [fs [| e]];
      [right; repeat split; exact F | left; reflexivity]. }
  destruct (is_string _ "vizIndex"); [left; reflexivity |].
  destruct (is_string _ "ping"); left; reflexivity.
Qed.

(** X10.  The staleness timestamp changes in one way only: a
    [features] message whose handling returns normally sets it to its
    arrival instant.  Frames, resizes, [vizIndex] and [ping] messages,
    dropped messages and messages that throw leave it as it is. *)
Theorem timestamp_set_by_features_only (st : Receiver) (ev : Event) :
  lastFeatureTime (step st ev) = lastFeatureTime st
  ∨ ∃ data now v,
      ev = Message data now
      ∧ decoded data v
      ∧ prop v "type" = VStr "features"
      ∧ (handleMessage now st data).2 = Returned
      ∧ lastFeatureTime (step st ev) = now.
Proof.
  destruct ev as [data now | now | w h]; simpl.
  - destruct (handleMessage_cases now st data)
      as [(s & _ & _ & E) | (v & D & E)]; rewrite E.
    + left. reflexivity.
    + destruct (route_timestamp now st v) as [L | (F & R & L)].
      * left. exact L.
      * right. exists data, now, v. rewrite E. repeat split; assumption.
  - left. apply lastFeatureTime_render.
  - left. reflexivity.
Qed.

(** *** What a frame leaves alone *)

Ltac tunnel_parts :=
  unfold drawBassTunnel;
  destruct (tunnel_spawn _ _ _) as [spawned calls];
  destruct (ring_loop _ _ _ _ _ _) as [rings ops].

Lemma dispatch_shared (st : Receiver) :
  width (dispatch st).1 = width st
  ∧ height (dispatch st).1 = height st
  ∧ activeVizIndex (dispatch st).1 = activeVizIndex st.
Proof.
  unfold dispatch.
  repeat (destruct (is_number _ _)); try (repeat split; reflexivity).
  tunnel_parts. repeat split; reflexivity.
Qed.

Lemma frame_view_private (now : Q) (st : Receiver) :
  nebulaParticles (frame_view now st) = nebulaParticles st
  ∧ randomCalls (frame_view now st) = randomCalls st
  ∧ width (frame_view now st) = width st
  ∧ height (frame_view now st) = height st.
Proof.
  unfold frame_view, decay_if_stale.
  destruct (Qlt_bool _ _); repeat split; reflexivity.
Qed.

Lemma dispatch_number (st : Receiver) (q : Q) :
  activeVizIndex st = VNum (Num q) →
  dispatch st
  = if Qeq_bool q 0 then drawNebula st
    else if Qeq_bool q 1 then drawBassTunnel st
    else if Qeq_bool q 2 then drawRibbonFlow st
    else if Qeq_bool q 3 then drawPulseGrid st
    else drawNebula st.
Proof. unfold dispatch. intros ->. reflexivity. Qed.

(** X11.  Only the active visualizer runs.  A frame of the flow ribbons
    or of the pulse grid changes nothing but the clock and the decay of
    the feature state; a frame of the ring tunnel, the flow ribbons or
    the pulse grid leaves every particle where it is; a frame of any
    visualizer but the ring tunnel leaves the rings and the random
    source alone. *)
Theorem inactive_state_untouched (now : Q) (st : Receiver) (q : Q) :
  activeVizIndex st = VNum (Num q) →
  (q == 2 ∨ q == 3 → (render now st).1 = frame_view now st)
  ∧ (q == 1 ∨ q == 2 ∨ q == 3 →
     nebulaParticles (render now st).1 = nebulaParticles st)
  ∧ (¬ q == 1 →
     tunnelRings (render now st).1 = tunnelRings st
     ∧ randomCalls (render now st).1 = randomCalls st).
Proof.
  intros I.
  assert (J : activeVizIndex (frame_view now st) = VNum (Num q))
    by (rewrite frame_view_index; exact I).
  destruct (frame_view_private now st) as (P & C & _).
  pose proof (tunnelRings_frame_view now st) as R.
  rewrite render_fst, (dispatch_number _ _ J).
  destruct (Qeq_bool q 0) eqn:E0; [apply Qeq_bool_iff in E0 | apply Qeq_bool_false in E0].
  { split; [intros [K | K]; lra |]. split; [intros [K | [K | K]]; lra |].
    intros _. split; [exact R | exact C]. }
  destruct (Qeq_bool q 1) eqn:E1; [apply Qeq_bool_iff in E1 | apply Qeq_bool_false in E1].
  { split; [intros [K | K]; lra |]. split; [| tauto].
    intros _. rewrite <- P. tunnel_parts. reflexivity. }
  destruct (Qeq_bool q 2) eqn:E2; [apply Qeq_bool_iff in E2 | apply Qeq_bool_false in E2].
  { split; [reflexivity |]. split; [intros _; exact P |].
    intros _. split; [exact R | exact C]. }
  destruct (Qeq_bool q 3) eqn:E3; [apply Qeq_bool_iff in E3 | apply Qeq_bool_false in E3].
  { split; [reflexivity |]. split; [intros _; exact P |].
    intros _. split; [exact R | exact C]. }
  split; [intros [K | K]; tauto |]. split; [intros [K | [K | K]]; tauto |].
  intros _. split; [exact R | exact C].
Qed.

Lemma length_particles_dispatch (st : Receiver) :
  length (nebulaParticles (dispatch st).1) = length (nebulaParticles st).
Proof.
  unfold dispatch.
  repeat (destruct (is_number _ _)); try reflexivity;
    try (unfold drawNebula; cbn [fst nebulaParticles set_nebulaParticles];
         rewrite !length_map; reflexivity).
  tunnel_parts. reflexivity.
Qed.

Lemma length_particles_step (st : Receiver) (ev : Event) :
  length (nebulaParticles (step st ev)) = length (nebulaParticles st).
Proof.
  destruct ev as [data now | now | w h]; simpl.
  - destruct (handleMessage_private now st data) as (_ & _ & _ & -> & _).
    reflexivity.
  - rewrite render_fst, length_particles_dispatch.
    destruct (frame_view_private now st) as (-> & _). reflexivity.
  - reflexivity.
Qed.

(** X12.  The swarm always has [NEBULA_COUNT] = 200 particles: start-up
    creates them and no message, frame or resize adds or removes one. *)
Theorem particle_count (w h : Z) (evs : list Event) :
  length (nebulaParticles (run (loaded w h) evs)) = NEBULA_COUNT
  ∧ NEBULA_COUNT = 200%nat.
Proof.
  split; [| reflexivity].
  assert (G : ∀ st, length (nebulaParticles (run st evs))
                    = length (nebulaParticles st)).
  { induction evs as [| ev evs IH]; intros st; [reflexivity |].
    change (run st (ev :: evs)) with (run (step st ev) evs).
    rewrite IH. apply length_particles_step. }
  rewrite G. unfold loaded, initNebula. cbn [nebulaParticles].
  rewrite length_map, length_seq. reflexivity.
Qed.

(** X13.  No visualizer writes the feature state or the shared
    variables: after a frame the surface size, the active index and the
    staleness timestamp are as before, and so are [beatCount],
    [beatPhase], [tempoBpm], [brightness], [roughness], [sectionEnergy]
    and both buffers, which the staleness rule does not touch either. *)
Theorem frame_spares (now : Q) (st : Receiver) :
  let st' := (render now st).1 in
  width st' = width st ∧ height st' = height st
  ∧ activeVizIndex st' = activeVizIndex st
  ∧ lastFeatureTime st' = lastFeatureTime st
  ∧ features st' = features (frame_view now st)
  ∧ beatCount (features st') = beatCount (features st)
  ∧ beatPhase (features st') = beatPhase (features st)
  ∧ tempoBpm (features st') = tempoBpm (features st)
  ∧ brightness (features st') = brightness (features st)
  ∧ roughness (features st') = roughness (features st)
  ∧ sectionEnergy (features st') = sectionEnergy (features st)
  ∧ waveform (features st') = waveform (features st)
  ∧ fftMagnitudes (features st') = fftMagnitudes (features st).
Proof.
  intros st'. subst st'.
  rewrite lastFeatureTime_render, render_fst, features_dispatch.
  destruct (dispatch_shared (frame_view now st)) as (-> & -> & ->).
  rewrite frame_view_index.
  destruct (frame_view_private now st) as (_ & _ & -> & ->).
  unfold frame_view, decay_if_stale.
  destruct (Qlt_bool _ _); repeat split; reflexivity.
Qed.

(** *** Particles *)

(** The remainder of a non-negative number by a positive one. *)
Lemma js_rem_range (x y : Q) :
  0 <= x → 0 < y →
  ∃ r, js_rem (Num x) (Num y) = Num r ∧ 0 <= r ∧ r < y.
Proof.
  intros X Y.
  exists (x - y * inject_Z (Qtrunc (x / y)))%Q.
  cbn [js_rem].
  replace (Qeq_bool y 0) with false by (symmetry; apply Qeq_bool_false; lra).
  split; [reflexivity |].
  assert (Z0 : 0 <= x / y) by (apply Qdiv_nonneg; assumption).
  unfold Qtrunc.
  replace (Qle_bool 0 (x / y)) with true by (symmetry; apply Qle_bool_iff, Z0).
  pose proof (Qfloor_le (x / y)) as L.
  pose proof (Qlt_floor (x / y)) as U.
  rewrite inject_Z_plus in U. change (inject_Z 1) with 1 in U.
  assert (M : x / y * y == x) by (field; lra).
  set (z := x / y) in *. set (f := inject_Z (Qfloor z)) in *.
  split; nra.
Qed.

(** X14.  Colour cycling keeps the hue on the colour wheel: when the
    hue of a particle is a number from 0 (included) to 360 (excluded)
    and [energyHigh] is a number from 0 to 1e300, the hue after the
    step is again a number from 0 (included) to 360 (excluded). *)
Theorem hue_stays_on_wheel (st : Receiver) (p : Particle.t) (h e : Q) :
  Particle.hue p = Num h → 0 <= h → h < 360 →
  ToNumber (energyHigh (features st)) = Num e → 0 <= e → e <= huge →
  ∃ h', Particle.hue (nebula_step st p).1 = Num h' ∧ 0 <= h' ∧ h' < 360.
Proof.
  intros Hp H0 _ He E0 _.
  unfold nebula_step, nebula_paint.
  cbn [fst Particle.hue nebula_wrap nebula_move].
  rewrite Hp, He. cbn [js_add js_mul].
  apply js_rem_range; lra.
Qed.

(** X15.  Start-up scatters the particles inside the surface: on a
    surface of at least 1 x 1 every initial particle has its position
    within the surface (right and bottom edges excluded), each velocity
    component from -1 (included) to 1 (excluded), its size from 2 to 6
    (both included), its hue from 0 (included) to 360 (excluded) and
    its life from 0 (included) to 1 (excluded). *)
Theorem initNebula_ranges (w h : Z) (p : Particle.t) :
  (1 <= w)%Z → (1 <= h)%Z →
  In p (initNebula w h) →
  ∃ x y vx vy size hue life,
    p = {| Particle.x := Num x; Particle.y := Num y;
           Particle.vx := Num vx; Particle.vy := Num vy;
           Particle.size := Num size; Particle.hue := Num hue;
           Particle.life := Num life |}
    ∧ (0 <= x ∧ x < inject_Z w) ∧ (0 <= y ∧ y < inject_Z h)
    ∧ (-1 <= vx ∧ vx < 1) ∧ (-1 <= vy ∧ vy < 1)
    ∧ (2 <= size ∧ size <= 6) ∧ (0 <= hue ∧ hue < 360)
    ∧ (0 <= life ∧ life < 1).
Proof.
  intros W Hh I. apply inject_Z_pos in W. apply inject_Z_pos in Hh.
  unfold initNebula in I. apply List.in_map_iff in I as (i & <- & _).
  unfold initNebula_particle, of_Z. cbn [js_add js_sub js_mul].
  pose proof (Math_random_range (7 * i + 0)) as [? ?].
  pose proof (Math_random_range (7 * i + 1)) as [? ?].
  pose proof (Math_random_range (7 * i + 2)) as [? ?].
  pose proof (Math_random_range (7 * i + 3)) as [? ?].
  pose proof (Math_random_range (7 * i + 4)) as [? ?].
  pose proof (Math_random_range (7 * i + 5)) as [? ?].
  pose proof (Math_random_range (7 * i + 6)) as [? ?].
  do 7 eexists. split; [reflexivity |].
  repeat split; nra.
Qed.

(** *** Rings *)

Lemma tunnel_maxR_pos (st : Receiver) :
  (1 <= width st)%Z → (1 <= height st)%Z →
  ∃ m, tunnel_maxR st = Num m ∧ 0 < m.
Proof.
  intros W Hh. apply inject_Z_pos in W. apply inject_Z_pos in Hh.
  unfold tunnel_maxR, of_Z. cbn [Math_min js_lt].
  destruct (Qlt_bool _ _); cbn [js_mul]; eexists; (split; [reflexivity | lra]).
Qed.

(** X16.  On a surface of at least 1 x 1, every ring the ring-tunnel
    frame keeps, if its radius is a number, has that radius at most 98%
    of the maximum extent and an alpha equal to 1 - radius / maximum,
    which is at least 0.02, and at most 1 when the radius is not
    negative.  The alpha test alone decides the removal of a ring of
    numeric radius: a radius above the maximum always comes with an
    alpha of 0. *)
Theorem kept_ring_bounds (st : Receiver) (ring : Ring.t) (r : Q) :
  (1 <= width st)%Z → (1 <= height st)%Z →
  In ring (tunnelRings (drawBassTunnel st).1) →
  Ring.radius ring = Num r →
  ∃ m a, tunnel_maxR st = Num m ∧ 0 < m
         ∧ Ring.alpha ring = Num a
         ∧ a == 1 - r / m
         ∧ 0.02 <= a
         ∧ r <= 0.98 * m
         ∧ (0 <= r → a <= 1)
         ∧ (∀ ring0 q,
              Ring.radius (grow (tunnel_speed st) (Num m) ring0) = Num q →
              expired (Num m) (grow (tunnel_speed st) (Num m) ring0)
              = js_lt (Ring.alpha (grow (tunnel_speed st) (Num m) ring0)) 0.02).
Proof.
  intros W Hh I R.
  destruct (tunnel_maxR_pos st W Hh) as (m & M & Mp).
  assert (X : ∀ ring0 q,
              Ring.radius (grow (tunnel_speed st) (Num m) ring0) = Num q →
              expired (Num m) (grow (tunnel_speed st) (Num m) ring0)
              = js_lt (Ring.alpha (grow (tunnel_speed st) (Num m) ring0)) 0.02).
  { intros ring0 q Rq. unfold expired.
    destruct (js_gt _ _) eqn:Gt; [| reflexivity].
    assert (Aq : Ring.alpha (grow (tunnel_speed st) (Num m) ring0)
                 = Math_max (Num 0)
                     (js_sub (Num 1)
                        (js_div (Ring.radius (grow (tunnel_speed st) (Num m) ring0))
                           (Num m)))) by reflexivity.
    rewrite Rq in Gt. unfold js_gt in Gt. cbn [js_lt] in Gt.
    apply Qlt_bool_iff in Gt.
    rewrite Aq, Rq, (js_div_Num _ _ Mp). cbn [js_sub Math_max js_lt].
    assert (Dq : q / m * m == q) by (field; lra).
    replace (Qlt_bool 0 (1 - q / m)) with false.
    - reflexivity.
    - symmetry. apply Qlt_bool_false. set (z := q / m) in *. nra. }
  rewrite tunnelRings_drawBassTunnel in I.
  apply List.filter_In in I as [I K].
  apply List.in_map_iff in I as (ring0 & G & _).
  assert (A : Ring.alpha ring
              = Math_max (Num 0) (js_sub (Num 1) (js_div (Ring.radius ring) (tunnel_maxR st)))).
  { rewrite <- G. reflexivity. }
  rewrite R, M, (js_div_Num _ _ Mp) in A. cbn [js_sub Math_max js_lt] in A.
  unfold kept, expired in K. rewrite negb_true_iff, orb_false_iff in K.
  destruct K as [_ K].
  assert (D : r / m * m == r) by (field; lra).
  exists m. destruct (Qlt_bool 0 (1 - r / m)) eqn:P.
  - exists (1 - r / m)%Q. rewrite A in K. cbn [js_lt] in K.
    apply Qlt_bool_false in K.
    split; [exact M |]. split; [exact Mp |]. split; [exact A |].
    split; [reflexivity |]. split; [exact K |].
    set (z := r / m) in *. split; [nra |]. split; [| exact X]. intros R0.
    assert (0 <= z) by (apply Qdiv_nonneg; assumption). lra.
  - rewrite A in K. cbn [js_lt] in K. apply Qlt_bool_false in K. lra.
Qed.




(** *** The pulse grid *)


End Further.

(** *** The sender connection *)

Ltac reassociate :=
  repeat (rewrite <- app_assoc || rewrite <- app_comm_cons); reflexivity.

Lemma timeouts_fire (due : list Q) :
  ∀ l, let l' := fold_left (λ acc _, on_timeout acc) due l in
       connected l' = connected l
       ∧ status_hidden l' = status_hidden l
       ∧ timeouts l' = timeouts l
       ∧ stopped l'
         = stopped l
           || (negb (connected l) && match due with [] => false | _ => true end).
Proof.
  induction due as [| t due IH]; intros l; cbn [fold_left].
  - rewrite andb_false_r, orb_false_r. repeat split.
  - destruct (IH (on_timeout l)) as (C & S & T & P).
    rewrite C, S, T, P. unfold on_timeout.
    destruct l as [c h ts s]. cbn [connected status_hidden timeouts stopped].
    destruct c, s, due; repeat split.
Qed.

Lemma filter_nonempty {A : Type} (f : A → bool) (l : list A) :
  match List.filter f l with [] => false | _ => true end = existsb f l.
Proof.
  induction l as [| a l IH]; [reflexivity |]. simpl.
  destruct (f a); [reflexivity | exact IH].
Qed.

Lemma elapse_spec (now : Q) (l : Link) :
  connected (elapse now l) = connected l
  ∧ status_hidden (elapse now l) = status_hidden l
  ∧ timeouts (elapse now l)
    = List.filter (λ t, negb (Qle_bool t now)) (timeouts l)
  ∧ stopped (elapse now l)
    = stopped l
      || (negb (connected l) && existsb (λ t, Qle_bool t now) (timeouts l)).
Proof.
  unfold elapse. rewrite <- filter_nonempty.
  exact (timeouts_fire (List.filter (λ t, Qle_bool t now) (timeouts l))
           {| connected := connected l;
              status_hidden := status_hidden l;
              timeouts := List.filter (λ t, negb (Qle_bool t now)) (timeouts l);
              stopped := stopped l |}).
Qed.

Lemma connected_step (l : Link) (ev : LinkEvent) :
  connected (link_step l ev)
  = match ev with
    | SenderConnected _ => true
    | SenderDisconnected _ => false
    | Elapsed _ => connected l
    end.
Proof.
  destruct ev; cbn [link_step instant]; try reflexivity.
  apply elapse_spec.
Qed.

Lemma status_hidden_step (l : Link) (ev : LinkEvent) :
  status_hidden (link_step l ev)
  = match ev with
    | SenderConnected _ => true
    | SenderDisconnected _ => false
    | Elapsed _ => status_hidden l
    end.
Proof.
  destruct ev; cbn [link_step instant]; try reflexivity.
  apply elapse_spec.
Qed.

Lemma timeouts_step (l : Link) (ev : LinkEvent) :
  timeouts (link_step l ev)
  = List.filter (λ t, negb (Qle_bool t (instant ev))) (timeouts l)
    ++ match ev with
       | SenderDisconnected now => [now + 30000]
       | _ => []
       end.
Proof.
  destruct (elapse_spec (instant ev) l) as (_ & _ & T & _).
  destruct ev; cbn [link_step instant on_sender_connected
                    on_sender_disconnected timeouts] in *;
    rewrite T, ?app_nil_r; reflexivity.
Qed.

Lemma stopped_step (l : Link) (ev : LinkEvent) :
  stopped (link_step l ev)
  = stopped l
    || (negb (connected l)
        && existsb (λ t, Qle_bool t (instant ev)) (timeouts l)).
Proof.
  destruct (elapse_spec (instant ev) l) as (_ & _ & _ & S).
  destruct ev; cbn [link_step instant on_sender_connected
                    on_sender_disconnected stopped] in *; exact S.
Qed.

Lemma link_run_app (l : Link) (evs1 evs2 : list LinkEvent) :
  link_run l (evs1 ++ evs2) = link_run (link_run l evs1) evs2.
Proof. apply fold_left_app. Qed.

Lemma link_run_snoc (l : Link) (evs : list LinkEvent) (ev : LinkEvent) :
  link_run l (evs ++ [ev]) = link_step (link_run l evs) ev.
Proof. apply link_run_app. Qed.

Lemma stopped_stays (evs : list LinkEvent) :
  ∀ l, stopped l = true → stopped (link_run l evs) = true.
Proof.
  induction evs as [| ev evs IH]; intros l S; [exact S |].
  apply IH. rewrite stopped_step, S. reflexivity.
Qed.

Lemma pending_sound (l : Link) (evs : list LinkEvent) :
  (∀ d, In d (timeouts l) → False) →
  ∀ d, In d (timeouts (link_run l evs)) → pending_of evs d.
Proof.
  intros E. induction evs as [| ev evs IH] using rev_ind; intros d I.
  - destruct (E d I).
  - rewrite link_run_snoc, timeouts_step in I.
    apply in_app_or in I as [I | I].
    + apply filter_In in I as [I L].
      destruct (IH d I) as (before & t & between & -> & -> & F).
      exists before, t, (between ++ [ev]).
      split; [reassociate |].
      split; [reflexivity |].
      apply Forall_app. split; [exact F |].
      apply List.Forall_cons; [| apply List.Forall_nil].
      apply negb_true_iff in L.
      destruct (Qlt_le_dec (instant ev) (t + 30000)) as [K | K]; [exact K |].
      apply Qle_bool_iff in K. congruence.
    + destruct ev as [now | now | now]; [destruct I | | destruct I].
      destruct I as [<- | []].
      exists evs, now, []. repeat split. apply List.Forall_nil.
Qed.

Lemma stopped_sound (l : Link) (evs : list LinkEvent) :
  timeouts l = [] → stopped l = false →
  stopped (link_run l evs) = true → timeout_fires l evs.
Proof.
  intros T0 S0. induction evs as [| ev evs IH] using rev_ind; intros S.
  - simpl in S. congruence.
  - rewrite link_run_snoc, stopped_step in S.
    apply orb_true_iff in S as [S | S].
    + destruct (IH S) as (before & t & between & e & after & -> & F & D & C).
      exists before, t, between, e, (after ++ [ev]).
      split; [| split; [exact F | split; [exact D | exact C]]].
      reassociate.
    + apply andb_true_iff in S as [C X].
      apply existsb_exists in X as (d & I & D).
      apply Qle_bool_iff in D.
      destruct (pending_sound l evs) with (d := d)
        as (before & t & between & -> & -> & F); [| exact I |].
      { intros d'. rewrite T0. intros []. }
      exists before, t, between, ev, [].
      split; [reassociate |].
      split; [exact F |]. split; [exact D |].
      apply negb_true_iff, C.
Qed.

Lemma pending_kept (d : Q) (evs : list LinkEvent) :
  Forall (λ e, instant e < d) evs →
  ∀ l, In d (timeouts l) → In d (timeouts (link_run l evs)).
Proof.
  induction 1 as [| ev evs L _ IH]; intros l I; [exact I |].
  apply IH. rewrite timeouts_step. apply in_or_app. left.
  apply filter_In. split; [exact I |].
  apply negb_true_iff. destruct (Qle_bool d (instant ev)) eqn:K; [| reflexivity].
  apply Qle_bool_iff in K. lra.
Qed.

Lemma stopped_complete (l : Link) (evs : list LinkEvent) :
  timeout_fires l evs → stopped (link_run l evs) = true.
Proof.
  intros (before & t & between & ev & after & -> & F & D & C).
  replace (before ++ SenderDisconnected t :: between ++ ev :: after)
    with ((before ++ SenderDisconnected t :: between) ++ ev :: after)
    by reassociate.
  rewrite link_run_app.
  change (link_run ?x (ev :: after)) with (link_run (link_step x ev) after).
  apply stopped_stays. rewrite stopped_step, C. cbn [negb andb].
  apply orb_true_iff. right. apply existsb_exists.
  exists (t + 30000). split; [| apply Qle_bool_iff, D].
  change (before ++ SenderDisconnected t :: between)
    with (before ++ [SenderDisconnected t] ++ between).
  rewrite app_assoc, link_run_app.
  apply pending_kept; [exact F |].
  rewrite link_run_snoc, timeouts_step. apply in_or_app. right. left. reflexivity.
Qed.

(** X20.  [context.stop()] is called exactly when the timeout of a
    disconnection fires and finds [connected] false: from start-up, the
    receiver is stopped after a sequence of events if and only if the
    sequence holds a SENDER_DISCONNECTED event at some instant [t], then
    only events before [t] + 30000, then an event at [t] + 30000 or
    later at whose instant the flag [connected] is false. *)
Theorem stop_iff_timeout_fires (hidden : bool) (evs : list LinkEvent) :
  stopped (link_run (initCastReceiver hidden) evs) = true
  ↔ timeout_fires (initCastReceiver hidden) evs.
Proof.
  split.
  - apply stopped_sound; reflexivity.
  - apply stopped_complete.
Qed.

Lemma latest_connection_snoc (evs : list LinkEvent) (ev : LinkEvent) :
  latest_connection (evs ++ [ev])
  = match ev with
    | SenderConnected _ => Some true
    | SenderDisconnected _ => Some false
    | Elapsed _ => latest_connection evs
    end.
Proof. unfold latest_connection. rewrite fold_left_app. reflexivity. Qed.

Lemma connection_run (l : Link) (evs : list LinkEvent) :
  connected (link_run l evs) = default (connected l) (latest_connection evs)
  ∧ status_hidden (link_run l evs)
    = default (status_hidden l) (latest_connection evs).
Proof.
  induction evs as [| ev evs [IC IS]] using rev_ind; [split; reflexivity |].
  rewrite link_run_snoc, connected_step, status_hidden_step,
    latest_connection_snoc.
  destruct ev; split; try reflexivity; assumption.
Qed.

(** X21.  The flag [connected] and the class [hidden] of the status
    banner record the last sender event and nothing else: after any
    sequence of events both are true if the last sender event was a
    SENDER_CONNECTED, both are false if it was a SENDER_DISCONNECTED,
    and both are as they were if there was none.  No timeout changes
    them, and senders are not counted. *)
Theorem banner_follows_last_event (l : Link) (evs : list LinkEvent) :
  let l' := link_run l evs in
  connected l' = default (connected l) (latest_connection evs)
  ∧ status_hidden l' = default (status_hidden l) (latest_connection evs).
Proof. exact (connection_run l evs). Qed.

(** X22.  A reconnection does not cancel the timeout of the
    disconnection before it.  When a disconnection at [t0] is followed,
    before [t0] + 30000, by a reconnection and a second disconnection,
    the receiver is stopped once [t0] + 30000 is reached, less than
    30 s after the second disconnection; when the reconnection lasts,
    it is not stopped. *)
Theorem stale_timeout_stops (hidden : bool) (t0 tc t1 now : Q) :
  tc < t0 + 30000 → t1 < t0 + 30000 → t0 + 30000 <= now →
  stopped (link_run (initCastReceiver hidden)
             [ SenderDisconnected t0; SenderConnected tc;
               SenderDisconnected t1; Elapsed now ]) = true
  ∧ stopped (link_run (initCastReceiver hidden)
               [ SenderDisconnected t0; SenderConnected tc;
                 Elapsed now ]) = false.
Proof.
  intros C1 C2 D. split.
  - apply stopped_complete.
    exists [], t0, [SenderConnected tc; SenderDisconnected t1], (Elapsed now), [].
    split; [reflexivity |].
    split; [repeat (apply List.Forall_cons; [assumption |]); apply List.Forall_nil |].
    split; [exact D |].
    apply (connection_run (initCastReceiver hidden)
             [SenderDisconnected t0; SenderConnected tc; SenderDisconnected t1]).
  - cbn [link_run fold_left].
    rewrite !stopped_step, !connected_step, !timeouts_step.
    cbn [initCastReceiver stopped connected timeouts instant List.filter
         app existsb negb andb orb].
    replace (Qle_bool (t0 + 30000) tc) with false
      by (symmetry; apply not_true_is_false; intros K;
          apply Qle_bool_iff in K; lra).
    reflexivity.
Qed.

(** X23.  The receiver does not count its senders: after any events, a
    SENDER_DISCONNECTED followed by 30 s without a sender event stops
    it, also when other senders are still connected. *)
Theorem departure_stops (hidden : bool) (evs : list LinkEvent) (t now : Q) :
  t + 30000 <= now →
  stopped (link_run (initCastReceiver hidden)
             (evs ++ [SenderDisconnected t; Elapsed now])) = true.
Proof.
  intros D. apply stopped_complete.
  exists evs, t, [], (Elapsed now), [].
  split; [reflexivity |]. split; [apply List.Forall_nil |].
  split; [exact D |].
  rewrite link_run_snoc. apply connected_step.
Qed.

(** ** The further properties on concrete inputs *)

Lemma clock_never_rewinds_witness :
  let evs1 := [Frame 16; Message (VStr "not json") 20] in
  let evs2 := [Resized 800 600] in
  0 < time (run (loaded 1920 1080) evs1)
  ∧ time (run (loaded 1920 1080) (evs1 ++ evs2))
    = time (run (loaded 1920 1080) evs1).
Proof.
  intros evs1 evs2.
  destruct (clock_never_rewinds 1920 1080 evs1 evs2) as (_ & _ & _ & P & I).
  split.
  - apply P. apply Exists_cons_hd. reflexivity.
  - apply I. apply List.Forall_cons; [reflexivity | apply List.Forall_nil].
Defined.

Lemma updateFeatures_last_wins_witness :
  tempoBpm
    (updateFeatures (updateFeatures initial_features tempo_update).1
       scenario_update).1
  = VNum 120.
Proof.
  destruct (updateFeatures_last_wins initial_features tempo_update
              scenario_update StempoBpm eq_refl) as [_ B].
  apply B. reflexivity.
Defined.

Lemma vizIndex_selects_witness :
  let st' := (handleMessage 0 (loaded 1920 1080)
                (vizIndex_message (VNum 2))).1.1 in
  dispatch st' = drawRibbonFlow st'.
Proof.
  intros st'.
  apply (vizIndex_selects 0 (loaded 1920 1080) (vizIndex_message (VNum 2))
           (<["type" := VStr "vizIndex"]> {[ "index" := VNum 2 ]}) 2 2);
    [reflexivity | reflexivity | reflexivity | reflexivity | lia].
Defined.

Lemma features_vizIndex_commute_witness :
  let d1 := features_message scenario_update in
  let d2 := vizIndex_message (VNum 2) in
  let st := loaded 1920 1080 in
  (handleMessage 20 (handleMessage 10 st d1).1.1 d2).1.1
  = (handleMessage 10 (handleMessage 20 st d2).1.1 d1).1.1.
Proof.
  intros d1 d2 st.
  apply (features_vizIndex_commute 10 20 st d1 d2
           (<["type" := VStr "features"]> {[ "data" := scenario_update ]})
           (<["type" := VStr "vizIndex"]> {[ "index" := VNum 2 ]}));
    reflexivity.
Defined.

Lemma message_dropped_witness :
  handleMessage 0 (loaded 1920 1080) (VNum 5) = (loaded 1920 1080, [], Returned).
Proof.
  apply message_dropped. right. exists (VNum 5).
  split; [reflexivity |]. split; [reflexivity |].
  intros [K | [K | K]]; discriminate K.
Defined.

Lemma handleMessage_throws_only_witness :
  ∃ v, decoded VNull v
       ∧ ((nullish v = true ∧ TypeError = TypeError)
          ∨ (prop v "type" = VStr "features"
             ∧ TypeError = TypedArrayError
             ∧ ∃ name, (name = "waveform" ∨ name = "fftMagnitudes")
                       ∧ truthy (prop (prop v "data") name) = true
                       ∧ Float32Array_from (prop (prop v "data") name) = None)).
Proof.
  apply (handleMessage_throws_only 0 (loaded 1920 1080) VNull TypeError).
  reflexivity.
Defined.

Lemma features_constructor_throws_witness :
  let st := loaded 1920 1080 in
  let data := features_message bad_waveform_update in
  (handleMessage 50 st data).2 = Threw TypedArrayError
  ∧ energyLow (features (handleMessage 50 st data).1.1) = VNum 0.8
  ∧ lastFeatureTime (handleMessage 50 st data).1.1 = lastFeatureTime st.
Proof.
  intros st data.
  destruct (features_constructor_throws 50 st data bad_waveform_update
              (<["type" := VStr "features"]> {[ "data" := bad_waveform_update ]}))
    as (E & T & _); try reflexivity.
  split; [rewrite E; reflexivity |].
  split; [rewrite E; reflexivity | exact T].
Defined.

Lemma inactive_state_untouched_witness :
  let st := set_activeVizIndex (VNum 2) (loaded 1920 1080) in
  (render 0 st).1 = frame_view 0 st.
Proof.
  intros st.
  destruct (inactive_state_untouched 0 st 2 eq_refl) as [A _].
  apply A. left. reflexivity.
Defined.

Lemma hue_stays_on_wheel_witness :
  let p := {| Particle.x := 99; Particle.y := 50;
              Particle.vx := 10; Particle.vy := 0;
              Particle.size := 2; Particle.hue := 359.8; Particle.life := 0 |} in
  ∃ h', Particle.hue (nebula_step (loaded 100 100) p).1 = Num h'
        ∧ 0 <= h' ∧ h' < 360.
Proof.
  intros p.
  apply (hue_stays_on_wheel (loaded 100 100) p 359.8 0);
    [reflexivity | vm_compute; discriminate | reflexivity | reflexivity
     | vm_compute; discriminate | vm_compute; discriminate].
Defined.

Lemma initNebula_ranges_witness :
  ∃ x, Particle.x (initNebula_particle 1920 1080 3) = Num x
       ∧ 0 <= x ∧ x < 1920.
Proof.
  destruct (initNebula_ranges 1920 1080 (initNebula_particle 1920 1080 3))
    as (x & y & vx & vy & size & hue & life & E & (X0 & X1) & _).
  - lia.
  - lia.
  - apply (in_map (initNebula_particle 1920 1080) _ 3%nat).
    apply in_seq. vm_compute. lia.
  - exists x. rewrite E. split; [reflexivity |]. split; [exact X0 | exact X1].
Defined.

Lemma kept_ring_bounds_witness :
  let st := loaded 1920 1080 in
  let ring := grow (tunnel_speed st) (tunnel_maxR st)
                (new_ring (features st) (S (randomCalls st))) in
  ∃ m a, tunnel_maxR st = Num m
         ∧ Ring.alpha ring = Num a
         ∧ 0.02 <= a
         ∧ (3 + 80 * 0.016 <= 0.98 * m)%Q.
Proof.
  intros st ring.
  destruct (kept_ring_bounds st ring (3 + 80 * 0.016)%Q)
    as (m & a & M & _ & A & _ & A2 & R & _).
  - vm_compute. discriminate.
  - vm_compute. discriminate.
  - vm_compute. left. reflexivity.
  - vm_compute. reflexivity.
  - exists m, a. repeat split; assumption.
Defined.



Lemma stop_iff_timeout_fires_witness :
  stopped (link_run (initCastReceiver false)
             [SenderDisconnected 5; Elapsed 30005]) = true.
Proof.
  apply (stop_iff_timeout_fires false [SenderDisconnected 5; Elapsed 30005]).
  exists [], 5, [], (Elapsed 30005), [].
  split; [reflexivity |]. split; [apply List.Forall_nil |].
  split; [vm_compute; discriminate | reflexivity].
Defined.

Lemma stale_timeout_stops_witness :
  stopped (link_run (initCastReceiver false)
             [ SenderDisconnected 0; SenderConnected 10000;
               SenderDisconnected 29999; Elapsed 30000 ]) = true.
Proof.
  apply (stale_timeout_stops false 0 10000 29999 30000);
    [reflexivity | reflexivity | vm_compute; discriminate].
Defined.

Lemma departure_stops_witness :
  let evs := [ SenderConnected 0; SenderConnected 1;
               SenderDisconnected 2; Elapsed 30002 ] in
  senders evs = 1%Z
  ∧ stopped (link_run (initCastReceiver false) evs) = true.
Proof.
  split; [reflexivity |].
  apply (departure_stops false [SenderConnected 0; SenderConnected 1] 2 30002).
  vm_compute. discriminate.
Defined.
